(** * Bluetooth-mesh light node: capability binding, availability tracking
      and colour-temperature conversions

    Shallow embedding of [gateway/mesh/nodes/generic.py] (class [Generic])
    and [gateway/mesh/nodes/light.py] (class [Light]).

    Python integers are [Z]; dictionaries are [gmap]; Python sets are
    [gset]; a method of the node is a computation in the monad [M], which
    threads the node and may raise a Python exception. *)

From stdpp Require Import gmap strings list.
From Stdlib Require Import ZArith QArith Qround Lia Lqa.

Local Open Scope Z_scope.

(** ** Python values kept in the retained cache and sent in requests *)

Inductive value :=
| VNone
| VBool (b : bool)
| VInt (z : Z)
| VStr (s : string).

#[global] Instance value_eq_dec : EqDecision value.
Proof. solve_decision. Defined.

(** [int(v)] for the values that behave as integers in arithmetic and in
    comparisons with integers ([bool] is a subclass of [int]). *)
Definition value_int (v : value) : option Z :=
  match v with
  | VInt z => Some z
  | VBool b => Some (if b then 1 else 0)
  | VNone | VStr _ => None
  end.

(** Truth value of an optional integer argument: [None] and [0] are falsy. *)
Definition truthy (a : option Z) : bool :=
  match a with
  | None => false
  | Some z => negb (z =? 0)
  end.

(** ** Exceptions *)

Inductive exn :=
| KeyError
| TypeError
| IndexError
| ZeroDivisionError
| ClientError (msg : string)
| CancelledError.

(** [except Exception] catches everything but the exceptions that derive
    from [BaseException] only. *)
Definition is_Exception (e : exn) : bool :=
  match e with
  | CancelledError => false
  | _ => true
  end.

(** ** Models, composition, application *)

Inductive model :=
| GenericOnOffServer
| LightLightnessServer
| LightCTLServer
| OtherModel (id : Z).

#[global] Instance model_eq_dec : EqDecision model.
Proof. solve_decision. Defined.

Definition model_code (m : model) : nat + Z :=
  match m with
  | GenericOnOffServer => inl 0%nat
  | LightLightnessServer => inl 1%nat
  | LightCTLServer => inl 2%nat
  | OtherModel id => inr id
  end.

Definition model_decode (c : nat + Z) : model :=
  match c with
  | inl 0%nat => GenericOnOffServer
  | inl 1%nat => LightLightnessServer
  | inl _ => LightCTLServer
  | inr id => OtherModel id
  end.

#[global] Instance model_countable : Countable model.
Proof. apply (inj_countable' model_code model_decode). by intros []. Defined.

(** Modelled from the spec: [mesh.composition.Element] is not among the
    sources.  An element lists the model identifiers it implements and
    [supports] tests membership in that list. *)
Record Element := { element_models : list model }.

Definition Element_supports (e : Element) (m : model) : bool :=
  bool_decide (m ∈ element_models e).

(** Modelled from the spec: [mesh.composition.Composition] is not among the
    sources.  A composition describes the elements of a node;
    [element(i)] is the [i]-th of them, and there is none when [i] is out of
    range ([bind_model] then raises, as indexing a Python sequence does). *)
Record Composition := { composition_elements : list Element }.

Definition Composition_element (c : Composition) (i : nat) : option Element :=
  composition_elements c !! i.

(** The application context: [app_keys[i]] is a tuple whose first
    component is the application-key index. *)
Record Application := { app_keys : list (list Z) }.

(** ** Configuration *)

(** Modelled from the spec: the configuration object of [mesh.Node] is not
    among the sources.  [optional(key, default)] is the configured value,
    or [default] when the key is absent. *)
Definition Config_optional (config : gmap string Z) (key : string) (dflt : Z) : Z :=
  default dflt (config !! key).

(** ** Constants of [light.py] *)

Definition BLE_MESH_MIN_LIGHTNESS : Z := 0.
Definition BLE_MESH_MAX_LIGHTNESS : Z := 65535.
Definition BLE_MESH_MIN_TEMPERATURE : Z := 800.
Definition BLE_MESH_MAX_TEMPERATURE : Z := 20000.
Definition BLE_MESH_MIN_MIRED : Z := 50.
Definition BLE_MESH_MAX_MIRED : Z := 1250.

Definition OnlineProperty : string := "online".
Definition OnOffProperty : string := "onoff".
Definition BrightnessProperty : string := "brightness".
Definition TemperatureProperty : string := "temperature".

(** ** Requests issued to the external mesh client *)

Module Client.

Inductive request :=
| bind_app_key (destination net_index element_address app_key_index : Z) (m : model)
| get_light_status (nodes : list Z) (app_index : Z)
| get_lightness (nodes : list Z) (app_index : Z)
| get_lightness_range (nodes : list Z) (app_index : Z)
| get_ctl (nodes : list Z) (app_index : Z)
| get_light_temperature_range (nodes : list Z) (app_index : Z)
| set_onoff_unack (destination app_index : Z) (onoff : bool)
| set_onoff (destination app_index : Z) (onoff : bool)
| set_lightness_unack (destination app_index : Z) (lightness : Z)
| set_lightness (nodes : list Z) (app_index : Z) (lightness : Z)
| set_ctl_unack (destination app_index : Z) (ctl_temperature ctl_lightness : value)
| set_ctl (nodes : list Z) (app_index : Z) (ctl_temperature : value).

(** The [ctl_lightness] argument of a request, when it carries one. *)
Definition ctl_lightness_of (r : request) : option value :=
  match r with
  | set_ctl_unack _ _ _ l => Some l
  | _ => None
  end.

(** The [ctl_temperature] argument of a request, when it carries one. *)
Definition ctl_temperature_of (r : request) : option value :=
  match r with
  | set_ctl_unack _ _ t _ => Some t
  | set_ctl _ _ t => Some t
  | _ => None
  end.

(** One per-node entry of a multi-address response: [None], an exception
    object, or a dictionary of status fields. *)
Inductive entry :=
| EntryNone
| EntryError (e : exn)
| EntryDict (fields : gmap string value).

(** What a call to the client does: it returns (possibly [None], else a
    mapping from addresses to entries) or it raises. *)
Inductive outcome :=
| Returns (state : option (gmap Z entry))
| Raises (e : exn).

End Client.

(** ** The node *)

Inductive level := DEBUG | INFO | WARNING.

Record Node := mkNode {
  unicast : Z;
  config : gmap string Z;
  _app : Application;
  (* Node *)
  _retained : gmap string value;
  notifications : list (string * value);
  (* Generic *)
  _composition : option Composition;
  _bound_models : gset model;
  (* Light *)
  _features : gset string;
  _availability_failures : Z;
  _availability_state : option string;
  _availability_threshold : Z;
  (* the outside world, as seen from the node *)
  requests : list Client.request;
  logging : list level
}.

(** ** Floating-point expressions, modelled by exact rationals

    The three float expressions of [light.py] are [1e6 / m] for an integer
    [m >= 1] truncated by [int], [1e6 / kelvin] for an integer
    [kelvin > 0] rounded by [round], and
    [(k - lo) * 19200 / (hi - lo) + 800] rounded by [round], with
    [0 <= k - lo <= hi - lo <= 1000000].  An IEEE-754 double operation is
    off by a relative [2^-53] at most.  The exact quotient [1e6 / m], when
    it is not an integer or a half-integer itself, stays away from the
    nearest one by [1 / (2 * m)], a relative [5 * 10^-7] or more; the exact
    level is at most 20000 and stays away by [1 / (2 * (hi - lo))], which is
    [5 * 10^-7] or more; and integers and half-integers of that size are
    doubles.  So truncating or rounding the double gives the same integer as
    truncating or rounding the exact rational, for every integer operand
    that converts to a double at all, and the model computes in [Q]. *)

(** [int(q)]: truncation toward zero. *)
Definition int_of_Q (q : Q) : Z := Z.quot (Qnum q) (Zpos (Qden q)).

(** [round(q)]: to the nearest integer, ties to the even one. *)
Definition round (q : Q) : Z :=
  let f := Qfloor q in
  match Qcompare (q - inject_Z f) (1 # 2) with
  | Lt => f
  | Gt => f + 1
  | Eq => if Z.even f then f else f + 1
  end.

(** ** Conversion limits

    The warning that [_mired_limits] logs when it swaps the limits is not
    recorded: the limits are read in the middle of expressions and nothing
    depends on that log line. *)

Definition _mired_limits (self : Node) : Z * Z :=
  let min_mired := Config_optional (config self) "mireds_min" BLE_MESH_MIN_MIRED in
  let max_mired := Config_optional (config self) "mireds_max" BLE_MESH_MAX_MIRED in
  let '(min_mired, max_mired) :=
    if min_mired >? max_mired then (max_mired, min_mired) else (min_mired, max_mired) in
  let min_mired := Z.max 1 min_mired in
  let max_mired := Z.max min_mired max_mired in
  (min_mired, max_mired).

Definition _kelvin_limits (self : Node) : Z * Z :=
  let '(min_mired, max_mired) := _mired_limits self in
  let min_kelvin :=
    Z.max BLE_MESH_MIN_TEMPERATURE (int_of_Q (inject_Z 1000000 / inject_Z max_mired)) in
  let max_kelvin :=
    Z.min BLE_MESH_MAX_TEMPERATURE (int_of_Q (inject_Z 1000000 / inject_Z min_mired)) in
  if min_kelvin >? max_kelvin then (max_kelvin, min_kelvin) else (min_kelvin, max_kelvin).

Definition _clamp_kelvin (self : Node) (kelvin : Z) : Z :=
  let '(min_kelvin, max_kelvin) := _kelvin_limits self in
  if kelvin <? min_kelvin then min_kelvin
  else if kelvin >? max_kelvin then max_kelvin
  else kelvin.

Definition kelvin_to_mireds (self : Node) (kelvin : Z) : Z :=
  let '(min_mired, max_mired) := _mired_limits self in
  if kelvin <=? 0 then max_mired
  else
    let mired := round (inject_Z 1000000 / inject_Z kelvin) in
    if mired <? min_mired then min_mired
    else if mired >? max_mired then max_mired
    else mired.

Definition kelvin_to_tuya_level (self : Node) (kelvin : Z) : Z :=
  let '(min_kelvin, max_kelvin) := _kelvin_limits self in
  let kelvin := _clamp_kelvin self kelvin in
  if max_kelvin =? min_kelvin then BLE_MESH_MIN_TEMPERATURE
  else
    let tuya_level :=
      (inject_Z (kelvin - min_kelvin)
       * inject_Z (BLE_MESH_MAX_TEMPERATURE - BLE_MESH_MIN_TEMPERATURE)
       / inject_Z (max_kelvin - min_kelvin)
       + inject_Z BLE_MESH_MIN_TEMPERATURE)%Q in
    round tuya_level.

(** ** Field updates *)

Definition with_retained (r : gmap string value) (n : list (string * value)) (s : Node) : Node :=
  mkNode (unicast s) (config s) (_app s) r n (_composition s) (_bound_models s)
         (_features s) (_availability_failures s) (_availability_state s)
         (_availability_threshold s) (requests s) (logging s).

Definition with_composition (c : option Composition) (s : Node) : Node :=
  mkNode (unicast s) (config s) (_app s) (_retained s) (notifications s)
         c (_bound_models s) (_features s) (_availability_failures s)
         (_availability_state s) (_availability_threshold s) (requests s) (logging s).

Definition with_bound_models (b : gset model) (s : Node) : Node :=
  mkNode (unicast s) (config s) (_app s) (_retained s) (notifications s)
         (_composition s) b (_features s) (_availability_failures s)
         (_availability_state s) (_availability_threshold s) (requests s) (logging s).

Definition with_availability_failures (f : Z) (s : Node) : Node :=
  mkNode (unicast s) (config s) (_app s) (_retained s) (notifications s)
         (_composition s) (_bound_models s) (_features s) f
         (_availability_state s) (_availability_threshold s) (requests s) (logging s).

Definition with_availability_state (a : option string) (s : Node) : Node :=
  mkNode (unicast s) (config s) (_app s) (_retained s) (notifications s)
         (_composition s) (_bound_models s) (_features s) (_availability_failures s)
         a (_availability_threshold s) (requests s) (logging s).

Definition with_requests (r : list Client.request) (s : Node) : Node :=
  mkNode (unicast s) (config s) (_app s) (_retained s) (notifications s)
         (_composition s) (_bound_models s) (_features s) (_availability_failures s)
         (_availability_state s) (_availability_threshold s) r (logging s).

Definition with_logging (l : list level) (s : Node) : Node :=
  mkNode (unicast s) (config s) (_app s) (_retained s) (notifications s)
         (_composition s) (_bound_models s) (_features s) (_availability_failures s)
         (_availability_state s) (_availability_threshold s) (requests s) l.

(** ** Methods as stateful computations that may raise *)

Inductive result (A : Type) :=
| Ok (a : A)
| Raise (e : exn).
Arguments Ok {A} a.
Arguments Raise {A} e.

Definition M (A : Type) : Type := Node -> result A * Node.

Definition ret {A} (a : A) : M A := fun s => (Ok a, s).

Definition raise {A} (e : exn) : M A := fun s => (Raise e, s).

Definition bind {A B} (c : M A) (k : A -> M B) : M B :=
  fun s =>
    match c s with
    | (Ok a, s') => k a s'
    | (Raise e, s') => (Raise e, s')
    end.

(** The monad notations [x ← c; k] and [c;; k] are those of stdpp. *)
#[global] Instance M_ret : MRet M := @ret.
#[global] Instance M_bind : MBind M := fun A B k c => bind c k.

Definition self : M Node := fun s => (Ok s, s).

Definition modify (f : Node -> Node) : M unit := fun s => (Ok tt, f s).

(** [try: c except Exception as err: ...]: the exception is handed to the
    caller as a value when it derives from [Exception]. *)
Definition attempt {A} (c : M A) : M (exn + A) :=
  fun s =>
    match c s with
    | (Ok a, s') => (Ok (inr a), s')
    | (Raise e, s') => if is_Exception e then (Ok (inl e), s') else (Raise e, s')
    end.

Definition log (l : level) : M unit :=
  modify (fun s => with_logging (logging s ++ [l]) s).

(** Modelled from the spec: [Node.notify] is not among the sources.  It
    overwrites the retained cache entry unconditionally and emits one
    change event to the subscribers. *)
Definition notify (property : string) (v : value) : M unit :=
  modify (fun s => with_retained (<[property := v]> (_retained s))
                                 (notifications s ++ [(property, v)]) s).

(** Modelled from the spec: [Node.retained] is not among the sources.  It
    returns the cached value, or [default] if absent. *)
Definition retained (property : string) (dflt : value) : M value :=
  fun s => (Ok (default dflt (_retained s !! property)), s).

(** [self._app.app_keys[0][0]] *)
Definition first_app_key : M Z :=
  fun s =>
    match app_keys (_app s) !! 0%nat ≫= (.!! 0%nat) with
    | Some k => (Ok k, s)
    | None => (Raise IndexError, s)
    end.

(** [state[address]]: [None] is not subscriptable, a missing key raises. *)
Definition subscript (state : option (gmap Z Client.entry)) (address : Z) : M Client.entry :=
  match state with
  | None => raise TypeError
  | Some d =>
      match d !! address with
      | Some e => ret e
      | None => raise KeyError
      end
  end.

(** [fields[key]] *)
Definition field (fields : gmap string value) (key : string) : M value :=
  match fields !! key with
  | Some v => ret v
  | None => raise KeyError
  end.

Definition arg_value (a : option Z) : value :=
  match a with
  | None => VNone
  | Some z => VInt z
  end.

Section Methods.

(** The external client: given the requests issued so far and the new
    request, what the awaited call does. *)
Variable client : list Client.request -> Client.request -> Client.outcome.

Definition call (r : Client.request) : M (option (gmap Z Client.entry)) :=
  fun s =>
    let s' := with_requests (requests s ++ [r]) s in
    match client (requests s) r with
    | Client.Returns state => (Ok state, s')
    | Client.Raises e => (Raise e, s')
    end.

(** *** [Generic] *)

Definition _is_model_bound (s : Node) (m : model) : bool :=
  bool_decide (m ∈ _bound_models s).

Definition bind_model (m : model) : M bool :=
  s ← self;
  let request_binding : M bool :=
    app_key_index ← first_app_key;
    call (Client.bind_app_key (unicast s) 0 (unicast s) app_key_index m);;
    modify (fun s => with_bound_models ({[m]} ∪ _bound_models s) s);;
    log INFO;;
    ret true in
  match _composition s with
  | None => log WARNING;; request_binding
  | Some composition =>
      match Composition_element composition 0 with
      | None => raise IndexError
      | Some element =>
          if negb (Element_supports element m)
          then log INFO;; ret false
          else request_binding
      end
  end.

(** *** [Light]: availability *)

Definition _availability_success : M unit :=
  modify (with_availability_failures 0);;
  s ← self;
  if negb (bool_decide (_availability_state s = Some "online"%string))
  then modify (with_availability_state (Some "online"%string));;
       notify "availability" (VStr "online")
  else ret tt.

Definition _availability_failure : M unit :=
  modify (fun s => with_availability_failures (_availability_failures s + 1) s);;
  s ← self;
  if _availability_failures s >=? _availability_threshold s
  then
    if negb (bool_decide (_availability_state s = Some "offline"%string))
    then modify (with_availability_state (Some "offline"%string));;
         notify "availability" (VStr "offline")
    else ret tt
  else ret tt.

(** *** [Light]: queries *)

Definition get_availability : M unit :=
  s ← self;
  polled ← attempt (app_index ← first_app_key;
                    call (Client.get_light_status [unicast s] app_index));
  match polled with
  | inl err => log WARNING;; _availability_failure
  | inr state =>
      (* result = (state or {}).get(self.unicast) *)
      match default ∅ state !! unicast s with
      | None | Some Client.EntryNone | Some (Client.EntryError _) =>
          log WARNING;; _availability_failure
      | Some (Client.EntryDict _) => _availability_success
      end
  end.

Definition get_onoff : M unit :=
  s ← self;
  app_index ← first_app_key;
  state ← call (Client.get_light_status [unicast s] app_index);
  result ← subscript state (unicast s);
  match result with
  | Client.EntryNone => log WARNING
  | Client.EntryError _ => ret tt
  | Client.EntryDict fields =>
      log INFO;;
      present_onoff ← field fields "present_onoff";
      notify OnOffProperty present_onoff
  end.

Definition get_lightness : M unit :=
  s ← self;
  app_index ← first_app_key;
  state ← call (Client.get_lightness [unicast s] app_index);
  result ← subscript state (unicast s);
  match result with
  | Client.EntryNone => log WARNING
  | Client.EntryError _ => ret tt
  | Client.EntryDict fields =>
      log INFO;;
      present_lightness ← field fields "present_lightness";
      notify BrightnessProperty present_lightness
  end.

(** [get_lightness_range], [get_ctl] and [get_light_temperature_range]
    differ in the request only: they log the result and notify nothing. *)
Definition get_logged (r : Client.request) : M unit :=
  s ← self;
  state ← call r;
  result ← subscript state (unicast s);
  match result with
  | Client.EntryNone => log WARNING
  | Client.EntryError _ => ret tt
  | Client.EntryDict _ => log INFO
  end.

Definition get_lightness_range : M unit :=
  s ← self;
  app_index ← first_app_key;
  get_logged (Client.get_lightness_range [unicast s] app_index).

Definition get_ctl : M unit :=
  s ← self;
  app_index ← first_app_key;
  get_logged (Client.get_ctl [unicast s] app_index).

Definition get_light_temperature_range : M unit :=
  s ← self;
  app_index ← first_app_key;
  get_logged (Client.get_light_temperature_range [unicast s] app_index).

(** *** [Light]: colour temperature commands *)

(** [kelvin_to_tuya_level(temperature)] on a value read back from the
    cache: comparing a non-number with the limits raises. *)
Definition tuya_level_of (temperature : value) : M value :=
  s ← self;
  match value_int temperature with
  | Some kelvin => ret (VInt (kelvin_to_tuya_level s kelvin))
  | None => raise TypeError
  end.

Definition set_ctl_unack (temperature brightness : option Z) (is_tuya : bool) : M unit :=
  s ← self;
  let temperature :=
    if truthy temperature then _clamp_kelvin s <$> temperature else temperature in
  let brightness :=
    if truthy brightness && bool_decide (default 0 brightness > BLE_MESH_MAX_LIGHTNESS)
    then Some BLE_MESH_MAX_LIGHTNESS else brightness in
  temperature ←
    (if truthy temperature
     then notify TemperatureProperty (arg_value temperature);; ret (arg_value temperature)
     else retained TemperatureProperty (VInt BLE_MESH_MAX_TEMPERATURE));
  brightness ←
    (if truthy brightness
     then notify BrightnessProperty (arg_value brightness);; ret (arg_value brightness)
     else retained BrightnessProperty (VInt BLE_MESH_MAX_LIGHTNESS));
  ctl_temperature ← (if is_tuya then tuya_level_of temperature else ret temperature);
  (if is_tuya then log DEBUG else ret tt);;
  app_index ← first_app_key;
  call (Client.set_ctl_unack (unicast s) app_index ctl_temperature brightness);;
  ret tt.

Definition set_ctl (temperature : option Z) (is_tuya : bool) : M unit :=
  s ← self;
  let temperature :=
    if truthy temperature then _clamp_kelvin s <$> temperature else temperature in
  temperature ←
    (if truthy temperature
     then notify TemperatureProperty (arg_value temperature);; ret (arg_value temperature)
     else retained TemperatureProperty (VInt BLE_MESH_MAX_TEMPERATURE));
  ctl_temperature ← (if is_tuya then tuya_level_of temperature else ret temperature);
  app_index ← first_app_key;
  call (Client.set_ctl [unicast s] app_index ctl_temperature);;
  ret tt.

Definition kelvin (temperature : option Z) (ack : bool) : M unit :=
  s ← self;
  if _is_model_bound s LightCTLServer
  then
    log INFO;;
    if negb ack then set_ctl_unack temperature None false
    else set_ctl temperature false
  else ret tt.

Definition mireds_to_kelvin (temperature : Z) (ack is_tuya : bool) : M unit :=
  s ← self;
  if _is_model_bound s LightCTLServer
  then
    (* 1000000 // temperature *)
    kelvin ← (if temperature =? 0 then raise ZeroDivisionError
              else ret (Z.max 1 (1000000 `div` temperature)));
    let kelvin := _clamp_kelvin s kelvin in
    log INFO;;
    if negb ack then set_ctl_unack (Some kelvin) None is_tuya
    else set_ctl (Some kelvin) is_tuya
  else ret tt.

(** *** [Light.__init__] *)

Definition Light__init__ (address : Z) (configuration : gmap string Z)
           (application : Application) : Node :=
  {| unicast := address;
     config := configuration;
     _app := application;
     _retained := ∅;
     notifications := [];
     _composition := None;
     _bound_models := ∅;
     _features := ∅;
     _availability_failures := 0;
     _availability_state := None;
     _availability_threshold :=
       Z.max 1 (Config_optional configuration "availability_failures" 3);
     requests := [];
     logging := [] |}.

End Methods.

(** ** Histories of availability outcomes *)

(** What the poll, or an inbound status message, reports. *)
Inductive probe := Success | Failure.

Definition record (p : probe) : M unit :=
  match p with
  | Success => _availability_success
  | Failure => _availability_failure
  end.

(** The node after a sequence of outcomes, oldest first. *)
Fixpoint replay (history : list probe) (s : Node) : Node :=
  match history with
  | [] => s
  | p :: history => replay history (record p s).2
  end.

(** What holds of the tracker in every state it can reach: the counter is
    at or above the threshold exactly in the [offline] state. *)
Definition tracker_invariant (s : Node) : Prop :=
  1 <= _availability_threshold s /\
  0 <= _availability_failures s /\
  (_availability_state s = Some "offline"%string <->
   _availability_threshold s <= _availability_failures s).

(** ** Concrete nodes and clients used in the examples *)

Definition example_app : Application := {| app_keys := [[0; 0]] |}.

(** A client that answers every call with [None]. *)
Definition silent_client : list Client.request -> Client.request -> Client.outcome :=
  fun _ _ => Client.Returns None.

(** Default configuration: mireds 50..1250, threshold 3. *)
Definition default_light : Node := Light__init__ 170 ∅ example_app.

(** Mired limits configured the wrong way round. *)
Definition inverted_light : Node :=
  Light__init__ 170 (<["mireds_min" := 500]> (<["mireds_max" := 100]> ∅)) example_app.

(** A single admissible colour temperature: 100 mireds, 10000 Kelvin. *)
Definition narrow_light : Node :=
  Light__init__ 170 (<["mireds_min" := 100]> (<["mireds_max" := 100]> ∅)) example_app.

(** A light whose composition lists the on/off server only. *)
Definition onoff_only_light : Node :=
  with_composition
    (Some {| composition_elements := [ {| element_models := [GenericOnOffServer] |} ] |})
    default_light.

(** A light with the colour-temperature model bound and a brightness of
    1000 retained. *)
Definition dimmed_light : Node :=
  (notify BrightnessProperty (VInt 1000)
          (with_bound_models {[LightCTLServer]} default_light)).2.

(** A client whose answer has no entry for any address. *)
Definition empty_reply_client : list Client.request -> Client.request -> Client.outcome :=
  fun _ _ => Client.Returns (Some ∅).

(** A client whose calls raise. *)
Definition failing_client : list Client.request -> Client.request -> Client.outcome :=
  fun _ _ => Client.Raises (ClientError "timeout").

(** A client whose answer holds an exception object for node 170. *)
Definition error_entry_client : list Client.request -> Client.request -> Client.outcome :=
  fun _ _ => Client.Returns (Some {[ 170 := Client.EntryError (ClientError "timeout") ]}).

(** ** The rescaled level, as the specification words it

    Monotone over the Kelvin range, 800 at its lower end, 20000 at its
    upper end, and 800 on a degenerate range. *)
Definition tuya_level_as_stated (s : Node) : Prop :=
  let lo := (_kelvin_limits s).1 in
  let hi := (_kelvin_limits s).2 in
  (forall k1 k2, lo <= k1 -> k1 <= k2 -> k2 <= hi ->
                 kelvin_to_tuya_level s k1 <= kelvin_to_tuya_level s k2) /\
  kelvin_to_tuya_level s lo = 800 /\
  kelvin_to_tuya_level s hi = 20000 /\
  (lo = hi -> forall k, kelvin_to_tuya_level s k = 800).

(** ** The remaining commands and callbacks of [Light] *)

Section Commands.

Variable client : list Client.request -> Client.request -> Client.outcome.

Definition supports (property : string) : M bool :=
  log DEBUG;;
  s ← self;
  ret (bool_decide (property ∈ _features s)).

Definition set_onoff_unack (onoff : bool) : M unit :=
  s ← self;
  notify OnOffProperty (VBool onoff);;
  app_index ← first_app_key;
  call client (Client.set_onoff_unack (unicast s) app_index onoff);;
  ret tt.

Definition set_onoff (onoff : bool) : M unit :=
  s ← self;
  notify OnOffProperty (VBool onoff);;
  app_index ← first_app_key;
  call client (Client.set_onoff (unicast s) app_index onoff);;
  ret tt.

Definition turn_on (ack : bool) : M unit :=
  if negb ack then set_onoff_unack true else set_onoff true.

Definition turn_off (ack : bool) : M unit :=
  if negb ack then set_onoff_unack false else set_onoff false.

Definition set_lightness_unack (lightness : Z) : M unit :=
  s ← self;
  let lightness :=
    if lightness >? BLE_MESH_MAX_LIGHTNESS then BLE_MESH_MAX_LIGHTNESS else lightness in
  notify BrightnessProperty (VInt lightness);;
  app_index ← first_app_key;
  call client (Client.set_lightness_unack (unicast s) app_index lightness);;
  ret tt.

Definition set_lightness (lightness : Z) : M unit :=
  s ← self;
  let lightness :=
    if lightness >? BLE_MESH_MAX_LIGHTNESS then BLE_MESH_MAX_LIGHTNESS else lightness in
  notify BrightnessProperty (VInt lightness);;
  app_index ← first_app_key;
  call client (Client.set_lightness [unicast s] app_index lightness);;
  ret tt.

Definition set_brightness (brightness : Z) (ack : bool) : M unit :=
  s ← self;
  if _is_model_bound s LightLightnessServer
  then
    if negb ack then set_lightness_unack brightness
    else set_lightness brightness
  else ret tt.

Definition refresh_state : M unit :=
  onoff ← supports OnOffProperty;
  (if onoff : bool then get_onoff client else ret tt);;
  brightness ← supports BrightnessProperty;
  (if brightness : bool then get_lightness client else ret tt);;
  temperature ← supports TemperatureProperty;
  (if temperature : bool then get_ctl client else ret tt).

(** The callback for lightness status messages; [message] is the decoded
    message, a dictionary of dictionaries. *)
Definition lightness_cb (source net_index destination : Z)
           (message : gmap string (gmap string value)) : M unit :=
  s ← self;
  if bool_decide (unicast s = source)
  then
    _availability_success;;
    status ← (match message !! "light_lightness_status" with
              | Some status => ret status
              | None => raise KeyError
              end);
    present_lightness ← field status "present_lightness";
    notify BrightnessProperty present_lightness
  else ret tt.

(** [refresh] polls for ever, once the node is ready; [refresh rounds] is
    the first [rounds] turns of its loop.  The sleep between two polls leaves
    the node alone. *)
Fixpoint refresh (rounds : nat) : M unit :=
  match rounds with
  | O => ret tt
  | S rounds => get_availability client;; refresh rounds
  end.

End Commands.

(** ** Fetching the composition *)

Section FetchComposition.

(** Modelled from the spec: page zero of the composition data and the
    constructor [Composition(page_zero)] are not among the sources; they are
    parameters here, with the truth value that [not page_zero] tests. *)
Variable Page : Type.
Variable page_truthy : Page -> bool.
Variable Composition_of_page : Page -> Composition.

(** One per-node entry of the composition data: a dictionary, whose
    ["zero"] entry is a page or is [None] or missing, or anything else. *)
Inductive composition_entry :=
| NotADict
| PageDict (zero : option Page).

(** What the awaited [get_composition_data] does. *)
Inductive composition_outcome :=
| DataReturned (data : option (gmap Z composition_entry))
| DataRaised (e : exn).

(** [fetch_composition], from the outcome of its request on (the request
    itself is not recorded among [requests]). *)
Definition fetch_composition (answer : composition_outcome) : M unit :=
  match answer with
  | DataRaised e => raise e
  | DataReturned data =>
      log INFO;;
      s ← self;
      (* node_data = (data or {}).get(self.unicast) *)
      match default ∅ data !! unicast s with
      | Some (PageDict zero) =>
          match zero with
          | Some page =>
              if negb (page_truthy page)
              then log WARNING;; modify (with_composition None)
              else modify (with_composition (Some (Composition_of_page page)))
          | None => log WARNING;; modify (with_composition None)
          end
      | Some NotADict | None => log WARNING;; modify (with_composition None)
      end
  end.

End FetchComposition.

(** ** What the availability tracker reads and writes, and what a poll says *)

Definition tracker (s : Node)
  : Z * option string * Z * list (string * value) * gmap string value :=
  (_availability_failures s, _availability_state s, _availability_threshold s,
   notifications s, _retained s).

(** How [get_availability] takes the outcome of its request: as a sign of
    life, as a failure, or not at all (an exception outside [Exception]
    passes through). *)
Inductive verdict := Alive | Failed | Escapes (e : exn).

Definition poll_verdict (address : Z) (o : Client.outcome) : verdict :=
  match o with
  | Client.Raises e => if is_Exception e then Failed else Escapes e
  | Client.Returns state =>
      match default ∅ state !! address with
      | Some (Client.EntryDict _) => Alive
      | _ => Failed
      end
  end.

(** A method that changes neither the availability state, nor the failure
    counter, nor the bound models. *)
Definition leaves_availability_alone (method : M unit) : Prop :=
  forall s,
    _availability_failures (method s).2 = _availability_failures s /\
    _availability_state (method s).2 = _availability_state s /\
    _bound_models (method s).2 = _bound_models s.

(** ** The zero-argument fallback, as the specification words it *)



(** * Properties *)

(** ** Exact rounding *)

Lemma int_of_Q_div (a b : Z) :
  0 < b -> int_of_Q (inject_Z a / inject_Z b) = a ÷ b.
Proof.
  intros Hb. destruct b as [|p|p]; try lia.
  unfold int_of_Q, Qdiv, Qinv, Qmult, inject_Z; simpl.
  by rewrite Z.mul_1_r.
Qed.

Lemma int_of_Q_million (m : Z) :
  1 <= m -> int_of_Q (inject_Z 1000000 / inject_Z m) = 1000000 `div` m.
Proof.
  intros Hm. rewrite int_of_Q_div by lia. apply Z.quot_div_nonneg; lia.
Qed.

Lemma round_comp (p q : Q) : (p == q)%Q -> round p = round q.
Proof.
  intros H. unfold round. rewrite (Qfloor_comp _ _ H).
  assert (Hc : (p - inject_Z (Qfloor q) ?= 1 # 2)%Q = (q - inject_Z (Qfloor q) ?= 1 # 2)%Q).
  { apply Qcompare_comp; [by rewrite H | reflexivity]. }
  by rewrite Hc.
Qed.

Lemma round_inject_Z (z : Z) : round (inject_Z z) = z.
Proof.
  unfold round. rewrite Qfloor_Z.
  assert (Hc : (inject_Z z - inject_Z z ?= 1 # 2)%Q = Lt).
  { apply (proj1 (Qlt_alt _ _)). generalize (inject_Z z). intros x. lra. }
  by rewrite Hc.
Qed.

Lemma round_floor (q : Q) : round q = Qfloor q \/ round q = Qfloor q + 1.
Proof.
  unfold round. destruct (Qcompare _ _); [destruct (Z.even _) | |]; auto.
Qed.

Lemma round_mono (p q : Q) : (p <= q)%Q -> round p <= round q.
Proof.
  intros Hpq.
  pose proof (Qfloor_resp_le _ _ Hpq) as Hf.
  destruct (Z.eq_dec (Qfloor p) (Qfloor q)) as [Heq | Hne].
  - unfold round. rewrite Heq.
    generalize dependent (inject_Z (Qfloor q)). intros x.
    destruct (Qcompare (p - x) (1 # 2)) eqn:Hp;
      destruct (Qcompare (q - x) (1 # 2)) eqn:Hq;
      try (destruct (Z.even (Qfloor q))); try lia;
      try apply (proj2 (Qeq_alt _ _)) in Hp; try apply (proj2 (Qlt_alt _ _)) in Hp;
      try apply (proj2 (Qgt_alt _ _)) in Hp;
      try apply (proj2 (Qeq_alt _ _)) in Hq; try apply (proj2 (Qlt_alt _ _)) in Hq;
      try apply (proj2 (Qgt_alt _ _)) in Hq;
      exfalso; lra.
  - destruct (round_floor p), (round_floor q); lia.
Qed.

(** ** Conversion limits *)

Lemma mired_limits_ordered (s : Node) :
  1 <= (_mired_limits s).1 /\ (_mired_limits s).1 <= (_mired_limits s).2.
Proof.
  unfold _mired_limits.
  destruct (_ >? _); simpl; lia.
Qed.

Lemma mired_limits_sorted (s : Node) :
  let a := Config_optional (config s) "mireds_min" BLE_MESH_MIN_MIRED in
  let b := Config_optional (config s) "mireds_max" BLE_MESH_MAX_MIRED in
  _mired_limits s = (Z.max 1 (Z.min a b), Z.max (Z.max 1 (Z.min a b)) (Z.max a b)).
Proof.
  intros a b. unfold _mired_limits. fold a b.
  destruct (Z.gtb_spec a b); f_equal; lia.
Qed.

Lemma kelvin_limits_formula (s : Node) :
  let lo := (_mired_limits s).1 in
  let hi := (_mired_limits s).2 in
  let min_kelvin := Z.max BLE_MESH_MIN_TEMPERATURE (1000000 `div` hi) in
  let max_kelvin := Z.min BLE_MESH_MAX_TEMPERATURE (1000000 `div` lo) in
  _kelvin_limits s =
    if min_kelvin >? max_kelvin then (max_kelvin, min_kelvin) else (min_kelvin, max_kelvin).
Proof.
  intros lo hi. pose proof (mired_limits_ordered s) as [H1 H2]. fold lo hi in H1, H2.
  unfold _kelvin_limits. destruct (_mired_limits s) as [l h]. simpl in *.
  subst lo hi. by rewrite !int_of_Q_million by lia.
Qed.

Lemma kelvin_limits_ordered (s : Node) : (_kelvin_limits s).1 <= (_kelvin_limits s).2.
Proof.
  rewrite kelvin_limits_formula.
  destruct (Z.gtb_spec (Z.max BLE_MESH_MIN_TEMPERATURE (1000000 `div` (_mired_limits s).2))
                       (Z.min BLE_MESH_MAX_TEMPERATURE (1000000 `div` (_mired_limits s).1)));
    simpl; lia.
Qed.

Lemma clamp_kelvin_cases (s : Node) (k : Z) :
  let lo := (_kelvin_limits s).1 in
  let hi := (_kelvin_limits s).2 in
  (k < lo /\ _clamp_kelvin s k = lo) \/
  (hi < k /\ _clamp_kelvin s k = hi) \/
  (lo <= k <= hi /\ _clamp_kelvin s k = k).
Proof.
  intros lo hi. pose proof (kelvin_limits_ordered s) as Hord. fold lo hi in Hord.
  unfold _clamp_kelvin. subst lo hi. destruct (_kelvin_limits s) as [lo hi]. simpl in *.
  destruct (Z.ltb_spec k lo); [lia |].
  destruct (Z.gtb_spec k hi); lia.
Qed.

Lemma clamp_kelvin_in_range (s : Node) (k : Z) :
  (_kelvin_limits s).1 <= _clamp_kelvin s k <= (_kelvin_limits s).2.
Proof.
  pose proof (kelvin_limits_ordered s). destruct (clamp_kelvin_cases s k); lia.
Qed.

Lemma clamp_kelvin_fixed (s : Node) (k : Z) :
  (_kelvin_limits s).1 <= k <= (_kelvin_limits s).2 -> _clamp_kelvin s k = k.
Proof. intros H. destruct (clamp_kelvin_cases s k); lia. Qed.

Lemma clamp_kelvin_mono (s : Node) (k1 k2 : Z) :
  k1 <= k2 -> _clamp_kelvin s k1 <= _clamp_kelvin s k2.
Proof.
  intros H. pose proof (kelvin_limits_ordered s).
  destruct (clamp_kelvin_cases s k1), (clamp_kelvin_cases s k2); lia.
Qed.

Lemma kelvin_to_mireds_in_range (s : Node) (k : Z) :
  (_mired_limits s).1 <= kelvin_to_mireds s k <= (_mired_limits s).2.
Proof.
  pose proof (mired_limits_ordered s) as [H1 H2].
  unfold kelvin_to_mireds. destruct (_mired_limits s) as [lo hi]. simpl in *.
  destruct (k <=? 0); [lia |].
  destruct (Z.ltb_spec (round (inject_Z 1000000 / inject_Z k)) lo); [lia |].
  destruct (Z.gtb_spec (round (inject_Z 1000000 / inject_Z k)) hi); lia.
Qed.

(** ** The rescaled level *)

Lemma tuya_level_degenerate (s : Node) (k : Z) :
  (_kelvin_limits s).1 = (_kelvin_limits s).2 ->
  kelvin_to_tuya_level s k = BLE_MESH_MIN_TEMPERATURE.
Proof.
  intros H. unfold kelvin_to_tuya_level.
  destruct (_kelvin_limits s) as [lo hi]. simpl in H. subst.
  by rewrite Z.eqb_refl.
Qed.

Lemma tuya_level_proper (s : Node) (k : Z) :
  (_kelvin_limits s).1 < (_kelvin_limits s).2 ->
  kelvin_to_tuya_level s k =
    round (inject_Z (_clamp_kelvin s k - (_kelvin_limits s).1)
           * inject_Z (BLE_MESH_MAX_TEMPERATURE - BLE_MESH_MIN_TEMPERATURE)
           / inject_Z ((_kelvin_limits s).2 - (_kelvin_limits s).1)
           + inject_Z BLE_MESH_MIN_TEMPERATURE)%Q.
Proof.
  intros H. unfold kelvin_to_tuya_level.
  destruct (_kelvin_limits s) as [lo hi]. simpl in *.
  destruct (Z.eqb_spec hi lo); [lia | done].
Qed.

Lemma tuya_level_mono (s : Node) (k1 k2 : Z) :
  k1 <= k2 -> kelvin_to_tuya_level s k1 <= kelvin_to_tuya_level s k2.
Proof.
  intros Hk. pose proof (kelvin_limits_ordered s) as Hord.
  destruct (Z.eq_dec (_kelvin_limits s).1 (_kelvin_limits s).2) as [Heq | Hne].
  - rewrite !tuya_level_degenerate by done. lia.
  - rewrite !tuya_level_proper by lia.
    apply round_mono, Qplus_le_compat; [| apply Qle_refl].
    unfold Qdiv. apply Qmult_le_compat_r.
    + rewrite <- !inject_Z_mult, <- Zle_Qle.
      pose proof (clamp_kelvin_mono s k1 k2 Hk).
      unfold BLE_MESH_MAX_TEMPERATURE, BLE_MESH_MIN_TEMPERATURE. lia.
    + apply Qinv_le_0_compat. change 0%Q with (inject_Z 0). rewrite <- Zle_Qle. lia.
Qed.

Lemma tuya_level_at_min (s : Node) :
  kelvin_to_tuya_level s (_kelvin_limits s).1 = BLE_MESH_MIN_TEMPERATURE.
Proof.
  pose proof (kelvin_limits_ordered s) as Hord.
  destruct (Z.eq_dec (_kelvin_limits s).1 (_kelvin_limits s).2) as [Heq | Hne].
  - by apply tuya_level_degenerate.
  - rewrite tuya_level_proper by lia.
    rewrite clamp_kelvin_fixed by lia. rewrite Z.sub_diag.
    etransitivity; [| apply (round_inject_Z BLE_MESH_MIN_TEMPERATURE)].
    apply round_comp. unfold Qdiv. change (inject_Z 0) with 0%Q. ring.
Qed.

Lemma tuya_level_at_max (s : Node) :
  (_kelvin_limits s).1 < (_kelvin_limits s).2 ->
  kelvin_to_tuya_level s (_kelvin_limits s).2 = BLE_MESH_MAX_TEMPERATURE.
Proof.
  intros Hlt. rewrite tuya_level_proper by lia.
  rewrite clamp_kelvin_fixed by lia.
  etransitivity; [| apply (round_inject_Z BLE_MESH_MAX_TEMPERATURE)].
  apply round_comp.
  assert (Hd : ~ (inject_Z ((_kelvin_limits s).2 - (_kelvin_limits s).1) == 0)%Q).
  { change 0%Q with (inject_Z 0). rewrite inject_Z_injective. lia. }
  generalize dependent (inject_Z ((_kelvin_limits s).2 - (_kelvin_limits s).1)).
  intros d Hd. unfold BLE_MESH_MAX_TEMPERATURE, BLE_MESH_MIN_TEMPERATURE.
  change (inject_Z (20000 - 800)) with (inject_Z 19200).
  field_simplify_eq; [| done]. 
  change (inject_Z 19200) with (19200 # 1)%Q.
  change (inject_Z 800) with (800 # 1)%Q.
  change (inject_Z 20000) with (20000 # 1)%Q. ring.
Qed.

(** ** Claims on the conversion engine *)

(** C5: misconfigured mired limits are put in order before any further use
    (the configured pair (500, 100) becomes (100, 500)); the Kelvin range is
    [max(800, 1e6/max_mired)] .. [min(20000, 1e6/min_mired)], the quotients
    truncated to integers, put in order again if inverted; and
    [_clamp_kelvin] clamps its argument to that range. *)
Theorem C5_limits_swapped_and_derived (s : Node) (k : Z) :
  let a := Config_optional (config s) "mireds_min" 50 in
  let b := Config_optional (config s) "mireds_max" 1250 in
  let min_mired := (_mired_limits s).1 in
  let max_mired := (_mired_limits s).2 in
  let lower := Z.max 800 (1000000 `div` max_mired) in
  let upper := Z.min 20000 (1000000 `div` min_mired) in
  _mired_limits s = (Z.max 1 (Z.min a b), Z.max (Z.max 1 (Z.min a b)) (Z.max a b)) /\
  _mired_limits inverted_light = (100, 500) /\
  _kelvin_limits s = (if lower >? upper then (upper, lower) else (lower, upper)) /\
  _clamp_kelvin s k = Z.max (_kelvin_limits s).1 (Z.min k (_kelvin_limits s).2).
Proof.
  intros a b min_mired max_mired lower upper.
  split; [apply mired_limits_sorted |].
  split; [by vm_compute |].
  split; [apply kelvin_limits_formula |].
  pose proof (kelvin_limits_ordered s).
  destruct (clamp_kelvin_cases s k); lia.
Qed.

(** C8: [_clamp_kelvin] is idempotent, whatever the configured limits. *)
Theorem C8_clamp_kelvin_idempotent (s : Node) (k : Z) :
  _clamp_kelvin s (_clamp_kelvin s k) = _clamp_kelvin s k.
Proof. apply clamp_kelvin_fixed, clamp_kelvin_in_range. Qed.

(** C10: for every configuration the mired limits satisfy
    [1 <= min_mired <= max_mired], the Kelvin limits satisfy
    [min_kelvin <= max_kelvin], [_clamp_kelvin] and [kelvin_to_mireds] land
    inside their range, and the availability threshold is at least 1. *)
Theorem C10_limits_invariants
        (s : Node) (k address : Z) (configuration : gmap string Z) (app : Application) :
  (1 <= (_mired_limits s).1 /\ (_mired_limits s).1 <= (_mired_limits s).2) /\
  (_kelvin_limits s).1 <= (_kelvin_limits s).2 /\
  ((_kelvin_limits s).1 <= _clamp_kelvin s k /\ _clamp_kelvin s k <= (_kelvin_limits s).2) /\
  ((_mired_limits s).1 <= kelvin_to_mireds s k /\ kelvin_to_mireds s k <= (_mired_limits s).2) /\
  1 <= _availability_threshold (Light__init__ address configuration app).
Proof.
  split; [apply mired_limits_ordered |].
  split; [apply kelvin_limits_ordered |].
  split; [apply clamp_kelvin_in_range |].
  split; [apply kelvin_to_mireds_in_range |].
  simpl. lia.
Qed.

(** C6, as stated, fails on a degenerate range: with both mired limits at
    100 the Kelvin range is the single point 10000, where the level is 800
    and not 20000. *)
Lemma C6_degenerate_range_counterexample : ~ tuya_level_as_stated narrow_light.
Proof.
  intros (_ & _ & Hmax & _). vm_compute in Hmax. discriminate Hmax.
Qed.

(** C6, amended: [kelvin_to_tuya_level] is monotonically non-decreasing over
    the Kelvin range, is 800 at [min_kelvin], is 20000 at [max_kelvin] when
    [min_kelvin < max_kelvin], and is 800 everywhere when
    [min_kelvin = max_kelvin]. *)
Theorem C6_tuya_level_monotone_endpoints (s : Node) :
  let lo := (_kelvin_limits s).1 in
  let hi := (_kelvin_limits s).2 in
  (forall k1 k2, lo <= k1 -> k1 <= k2 -> k2 <= hi ->
                 kelvin_to_tuya_level s k1 <= kelvin_to_tuya_level s k2) /\
  kelvin_to_tuya_level s lo = 800 /\
  (lo < hi -> kelvin_to_tuya_level s hi = 20000) /\
  (lo = hi -> forall k, kelvin_to_tuya_level s k = 800).
Proof.
  intros lo hi. repeat split.
  - intros k1 k2 _ Hk _. by apply tuya_level_mono.
  - apply tuya_level_at_min.
  - apply tuya_level_at_max.
  - intros Heq k. by apply tuya_level_degenerate.
Qed.

Lemma C6_tuya_level_witness :
  kelvin_to_tuya_level default_light 2700 <= kelvin_to_tuya_level default_light 6500 /\
  kelvin_to_tuya_level default_light 20000 = 20000 /\
  kelvin_to_tuya_level narrow_light 2700 = 800.
Proof.
  split; [| split].
  - apply (proj1 (C6_tuya_level_monotone_endpoints default_light)); by vm_compute.
  - apply (proj1 (proj2 (proj2 (C6_tuya_level_monotone_endpoints default_light)))).
    by vm_compute.
  - apply (proj2 (proj2 (proj2 (C6_tuya_level_monotone_endpoints narrow_light)))).
    by vm_compute.
Defined.

(** ** The availability tracker *)

Ltac run_method :=
  unfold _availability_success, _availability_failure, record, notify, log, modify, self,
    mbind, M_bind, bind, ret; simpl.

Lemma success_effect (s : Node) :
  (_availability_success s).1 = Ok tt /\
  _availability_failures (_availability_success s).2 = 0 /\
  _availability_state (_availability_success s).2 = Some "online"%string /\
  _availability_threshold (_availability_success s).2 = _availability_threshold s /\
  notifications (_availability_success s).2 =
    notifications s ++
      (if bool_decide (_availability_state s = Some "online"%string) then []
       else [("availability"%string, VStr "online")]).
Proof.
  run_method. case_bool_decide; simpl; rewrite ?app_nil_r; auto.
Qed.

Lemma failure_effect (s : Node) :
  (_availability_failure s).1 = Ok tt /\
  _availability_failures (_availability_failure s).2 = _availability_failures s + 1 /\
  _availability_threshold (_availability_failure s).2 = _availability_threshold s /\
  (if bool_decide (_availability_threshold s <= _availability_failures s + 1)
      && negb (bool_decide (_availability_state s = Some "offline"%string))
   then _availability_state (_availability_failure s).2 = Some "offline"%string /\
        notifications (_availability_failure s).2 =
          notifications s ++ [("availability"%string, VStr "offline")]
   else _availability_state (_availability_failure s).2 = _availability_state s /\
        notifications (_availability_failure s).2 = notifications s).
Proof.
  run_method.
  destruct (Z.geb_spec (_availability_failures s + 1) (_availability_threshold s));
    repeat case_bool_decide; simpl; first [exfalso; lia | auto].
Qed.

Lemma record_invariant (p : probe) (s : Node) :
  tracker_invariant s -> tracker_invariant (record p s).2.
Proof.
  intros (Ht & Hf & Hoff). unfold tracker_invariant. destruct p; simpl.
  - destruct (success_effect s) as (_ & -> & -> & -> & _).
    split; [done |]. split; [done |]. split; [done | lia].
  - destruct (failure_effect s) as (_ & -> & -> & Hcase).
    split; [done |]. split; [lia |].
    case_bool_decide as Hreach; simpl in Hcase.
    + case_bool_decide as Hst; simpl in Hcase; destruct Hcase as [-> _].
      * rewrite Hst. split; [lia | done].
      * split; [lia | done].
    + destruct Hcase as [-> _]. rewrite Hoff. lia.
Qed.

Lemma replay_invariant (history : list probe) (s : Node) :
  tracker_invariant s -> tracker_invariant (replay history s).
Proof.
  revert s. induction history as [| p history IH]; intros s Hs; simpl; [done |].
  by apply IH, record_invariant.
Qed.

Lemma replay_app (h1 h2 : list probe) (s : Node) :
  replay (h1 ++ h2) s = replay h2 (replay h1 s).
Proof. revert s. induction h1 as [| p h1 IH]; intros s; simpl; [done | apply IH]. Qed.

Lemma replay_threshold (history : list probe) (s : Node) :
  _availability_threshold (replay history s) = _availability_threshold s.
Proof.
  revert s. induction history as [| p history IH]; intros s; simpl; [done |].
  rewrite IH. destruct p; simpl.
  - by destruct (success_effect s) as (_ & _ & _ & -> & _).
  - by destruct (failure_effect s) as (_ & _ & -> & _).
Qed.

(** Failures that stay short of the threshold only move the counter. *)
Lemma failures_below_threshold (j : nat) (s : Node) :
  _availability_failures s + Z.of_nat j < _availability_threshold s ->
  _availability_failures (replay (repeat Failure j) s) = _availability_failures s + Z.of_nat j /\
  _availability_state (replay (repeat Failure j) s) = _availability_state s /\
  notifications (replay (repeat Failure j) s) = notifications s.
Proof.
  revert s. induction j as [| j IH]; intros s Hlt; simpl replay.
  - split; [lia | done].
  - destruct (failure_effect s) as (_ & Hf & Ht & Hcase).
    case_bool_decide; [lia |]. simpl in Hcase. destruct Hcase as [Hst Hn].
    destruct (IH (_availability_failure s).2) as (IHf & IHst & IHn); [lia |].
    rewrite IHf, IHst, IHn, Hf, Hst, Hn. split; [lia | done].
Qed.

Lemma init_invariant (address : Z) (configuration : gmap string Z) (app : Application) :
  tracker_invariant (Light__init__ address configuration app).
Proof. unfold tracker_invariant; simpl. split; [lia |]. split; [lia |]. split; [done | lia]. Qed.

(** C1: in every state [s] the tracker reaches from its initial state, with
    threshold [t]: [t >= 1]; a success resets the counter to 0, leaves the
    state [online] and notifies [availability=online] exactly once if the
    state was not [online], not at all if it was; a failure increments the
    counter, and sets [offline] and notifies [availability=offline] exactly
    once exactly when the counter has reached [t] and the state was not
    [offline], else changes neither state nor notifications; in a run of
    failures that starts with the counter at 0, the first [j < t] failures
    notify nothing and the [t]-th sets [offline] and notifies once; a
    success after [j < t] failures resets the counter to 0 without any
    [offline] transition. *)
Theorem C1_availability_tracker
        (address : Z) (configuration : gmap string Z) (app : Application)
        (history : list probe) (j : nat) :
  let t := _availability_threshold (Light__init__ address configuration app) in
  let s := replay history (Light__init__ address configuration app) in
  let online := ("availability"%string, VStr "online") in
  let offline := ("availability"%string, VStr "offline") in
  1 <= t /\
  ((_availability_success s).1 = Ok tt /\
   _availability_failures (_availability_success s).2 = 0 /\
   _availability_state (_availability_success s).2 = Some "online"%string /\
   notifications (_availability_success s).2 =
     notifications s ++
       (if bool_decide (_availability_state s = Some "online"%string) then [] else [online])) /\
  ((_availability_failure s).1 = Ok tt /\
   _availability_failures (_availability_failure s).2 = _availability_failures s + 1 /\
   (if bool_decide (t <= _availability_failures s + 1)
       && negb (bool_decide (_availability_state s = Some "offline"%string))
    then _availability_state (_availability_failure s).2 = Some "offline"%string /\
         notifications (_availability_failure s).2 = notifications s ++ [offline]
    else _availability_state (_availability_failure s).2 = _availability_state s /\
         notifications (_availability_failure s).2 = notifications s)) /\
  (_availability_failures s = 0 ->
   (_availability_state (replay (repeat Failure (Z.to_nat t)) s) = Some "offline"%string /\
    notifications (replay (repeat Failure (Z.to_nat t)) s) = notifications s ++ [offline]) /\
   (Z.of_nat j < t ->
    (_availability_state (replay (repeat Failure j) s) = _availability_state s /\
     notifications (replay (repeat Failure j) s) = notifications s) /\
    (_availability_failures (replay (repeat Failure j ++ [Success]) s) = 0 /\
     _availability_state (replay (repeat Failure j ++ [Success]) s) = Some "online"%string /\
     notifications (replay (repeat Failure j ++ [Success]) s) =
       notifications s ++
         (if bool_decide (_availability_state s = Some "online"%string) then []
          else [online])))).
Proof.
  intros t s online offline.
  pose proof (replay_invariant history _ (init_invariant address configuration app))
    as (Ht & Hf & Hoff).
  fold s in Ht, Hf, Hoff.
  assert (Hthr : _availability_threshold s = t) by apply replay_threshold.
  rewrite Hthr in Ht, Hoff.
  split; [done |].
  split.
  { destruct (success_effect s) as (? & ? & ? & _ & ?). done. }
  split.
  { destruct (failure_effect s) as (? & ? & _ & ?). rewrite Hthr in *. done. }
  intros Hzero. split.
  - (* the run of t failures: t - 1 quiet ones, then the transition *)
    replace (Z.to_nat t) with (Z.to_nat (t - 1) + 1)%nat by lia.
    rewrite repeat_app, replay_app. simpl replay.
    destruct (failures_below_threshold (Z.to_nat (t - 1)) s) as (Hf' & Hst' & Hn'); [lia |].
    set (s' := replay (repeat Failure (Z.to_nat (t - 1))) s) in *.
    destruct (failure_effect s') as (_ & _ & _ & Hcase).
    assert (Hthr' : _availability_threshold s' = t).
    { unfold s'. by rewrite replay_threshold. }
    rewrite Hthr' in Hcase.
    assert (Hnot : _availability_state s' <> Some "offline"%string).
    { rewrite Hst', Hoff. lia. }
    rewrite bool_decide_eq_true_2 in Hcase by lia.
    rewrite (bool_decide_eq_false_2 _ Hnot) in Hcase. simpl in Hcase.
    destruct Hcase as [-> ->]. by rewrite Hn'.
  - intros Hj.
    destruct (failures_below_threshold j s) as (Hf' & Hst' & Hn'); [lia |].
    split; [done |].
    rewrite replay_app. simpl replay.
    set (s' := replay (repeat Failure j) s) in *.
    destruct (success_effect s') as (_ & -> & -> & _ & ->).
    by rewrite Hst', Hn'.
Qed.

Lemma C1_availability_tracker_witness :
  let s := replay [Failure; Success] default_light in
  (_availability_state (replay [Failure; Failure; Failure] s) = Some "offline"%string /\
   notifications (replay [Failure; Failure; Failure] s) =
     notifications s ++ [("availability"%string, VStr "offline")]) /\
  _availability_failures (replay [Failure; Failure; Success] s) = 0.
Proof.
  intros s.
  destruct (C1_availability_tracker 170 ∅ example_app [Failure; Success] 2)
    as (_ & _ & _ & Hrun).
  assert (Hzero : _availability_failures s = 0) by (by vm_compute).
  destruct (Hrun Hzero) as [Hfull Hshort].
  split; [exact Hfull |].
  assert (Hlt : Z.of_nat 2 < _availability_threshold default_light) by (by vm_compute).
  destruct (Hshort Hlt) as (_ & Hreset & _). exact Hreset.
Defined.

(** ** Model binding *)

Ltac run_bind_model :=
  unfold bind_model, call, first_app_key, log, modify, self, raise,
    mbind, M_bind, bind, ret; simpl.

(** C3: with a composition whose element zero does not support [m],
    [bind_model m] returns [False], issues no request and leaves the
    bound-model set unchanged.  With a composition whose element zero supports
    [m], or with no composition (a warning is logged), it issues exactly one
    [bind_app_key] request for the node's unicast address, network index 0,
    the application's first app-key index and [m], adds [m] to the
    bound-model set and returns [True], whatever the client answers. *)
Theorem C3_bind_model
        (client : list Client.request -> Client.request -> Client.outcome)
        (s : Node) (m : model) :
  (forall composition element,
      _composition s = Some composition ->
      Composition_element composition 0 = Some element ->
      Element_supports element m = false ->
      (bind_model client m s).1 = Ok false /\
      requests (bind_model client m s).2 = requests s /\
      _bound_models (bind_model client m s).2 = _bound_models s) /\
  (forall app_key_index key_rest keys_rest answer,
      (_composition s = None \/
       exists composition element,
         _composition s = Some composition /\
         Composition_element composition 0 = Some element /\
         Element_supports element m = true) ->
      app_keys (_app s) = (app_key_index :: key_rest) :: keys_rest ->
      client (requests s) (Client.bind_app_key (unicast s) 0 (unicast s) app_key_index m)
        = Client.Returns answer ->
      (bind_model client m s).1 = Ok true /\
      requests (bind_model client m s).2 =
        requests s ++ [Client.bind_app_key (unicast s) 0 (unicast s) app_key_index m] /\
      _bound_models (bind_model client m s).2 = {[m]} ∪ _bound_models s /\
      logging (bind_model client m s).2 =
        logging s ++ (match _composition s with Some _ => [INFO] | None => [WARNING; INFO] end)).
Proof.
  split.
  - intros composition element Hc He Hs.
    run_bind_model. rewrite Hc, He, Hs. simpl. done.
  - intros app_key_index key_rest keys_rest answer Hcomp Hkeys Hanswer.
    destruct Hcomp as [Hc | (composition & element & Hc & He & Hs)];
      run_bind_model; rewrite Hc; simpl; rewrite ?He, ?Hs; simpl;
      rewrite Hkeys; simpl; rewrite Hanswer; simpl;
      rewrite <- ?app_assoc; done.
Qed.

Lemma C3_bind_model_witness :
  ((bind_model silent_client LightCTLServer onoff_only_light).1 = Ok false /\
   requests (bind_model silent_client LightCTLServer onoff_only_light).2 = []) /\
  ((bind_model silent_client GenericOnOffServer onoff_only_light).1 = Ok true /\
   requests (bind_model silent_client GenericOnOffServer onoff_only_light).2 =
     [Client.bind_app_key 170 0 170 0 GenericOnOffServer]) /\
  (bind_model silent_client LightCTLServer default_light).1 = Ok true.
Proof.
  split; [| split].
  - destruct (C3_bind_model silent_client onoff_only_light LightCTLServer) as [Hskip _].
    destruct (Hskip {| composition_elements := [ {| element_models := [GenericOnOffServer] |} ] |}
                    {| element_models := [GenericOnOffServer] |}
                    eq_refl eq_refl eq_refl) as (Hr & Hq & _).
    split; [exact Hr | exact Hq].
  - destruct (C3_bind_model silent_client onoff_only_light GenericOnOffServer) as [_ Hbind].
    destruct (Hbind 0 [0] [] None) as (Hr & Hq & _).
    + right.
      exists {| composition_elements := [ {| element_models := [GenericOnOffServer] |} ] |},
             {| element_models := [GenericOnOffServer] |}.
      repeat split; reflexivity.
    + reflexivity.
    + reflexivity.
    + split; [exact Hr | exact Hq].
  - destruct (C3_bind_model silent_client default_light LightCTLServer) as [_ Hbind].
    destruct (Hbind 0 [0] [] None) as (Hr & _).
    + left. reflexivity.
    + reflexivity.
    + reflexivity.
    + exact Hr.
Defined.

(** ** Colour-temperature commands *)

#[local] Arguments _clamp_kelvin : simpl never.
#[local] Arguments kelvin_to_tuya_level : simpl never.

Ltac run_ctl :=
  unfold set_ctl_unack, set_ctl, kelvin, mireds_to_kelvin, tuya_level_of, retained, notify,
    call, first_app_key, log, modify, self, raise, mbind, M_bind, bind, ret; simpl.

Ltac ctl_branch :=
  match goal with
  | |- context [if ?b then _ else _] => destruct b eqn:?
  | |- context [match ?x with _ => _ end] =>
      match type of x with
      | option _ => destruct x eqn:?
      | Client.outcome => destruct x eqn:?
      end
  end; simpl.

Lemma filter_other (p q : string) (v : value) (l : list (string * value)) :
  p <> q ->
  filter (fun n : string * value => n.1 = q) (l ++ [(p, v)]) =
  filter (fun n : string * value => n.1 = q) l.
Proof.
  intros Hne. rewrite filter_app, filter_cons_False, filter_nil, app_nil_r; done.
Qed.

Lemma tuya_level_config (s s' : Node) (k : Z) :
  config s = config s' -> kelvin_to_tuya_level s k = kelvin_to_tuya_level s' k.
Proof.
  intros H. unfold kelvin_to_tuya_level, _clamp_kelvin, _kelvin_limits, _mired_limits.
  by rewrite H.
Qed.

Lemma kelvin_upper_limit (s : Node) : 800 <= (_kelvin_limits s).2.
Proof.
  rewrite kelvin_limits_formula.
  destruct (Z.gtb_spec (Z.max BLE_MESH_MIN_TEMPERATURE (1000000 `div` (_mired_limits s).2))
                       (Z.min BLE_MESH_MAX_TEMPERATURE (1000000 `div` (_mired_limits s).1)));
    simpl; unfold BLE_MESH_MIN_TEMPERATURE in *; lia.
Qed.

Lemma clamp_kelvin_positive (s : Node) (k : Z) : 1 <= k -> 1 <= _clamp_kelvin s k.
Proof.
  intros Hk. pose proof (kelvin_upper_limit s).
  destruct (clamp_kelvin_cases s k); lia.
Qed.



(** The acknowledged path never touches the brightness. *)
Lemma set_ctl_keeps_brightness client (t : option Z) (is_tuya : bool) (s : Node) :
  _retained (set_ctl client t is_tuya s).2 !! BrightnessProperty
    = _retained s !! BrightnessProperty /\
  filter (fun n : string * value => n.1 = BrightnessProperty)
         (notifications (set_ctl client t is_tuya s).2)
    = filter (fun n : string * value => n.1 = BrightnessProperty) (notifications s).
Proof.
  run_ctl.
  repeat ctl_branch; rewrite ?filter_other by done; rewrite ?lookup_insert_ne by done; done.
Qed.

(** The request of the unacknowledged path, true Kelvin encoding. *)
Lemma set_ctl_unack_request client (t b : option Z) (s : Node) idx key_rest keys_rest :
  app_keys (_app s) = (idx :: key_rest) :: keys_rest ->
  exists T L,
    requests (set_ctl_unack client t b false s).2
      = requests s ++ [Client.set_ctl_unack (unicast s) idx T L] /\
    (truthy t = false ->
     T = default (VInt BLE_MESH_MAX_TEMPERATURE) (_retained s !! TemperatureProperty)) /\
    (truthy b = false ->
     L = default (VInt BLE_MESH_MAX_LIGHTNESS) (_retained s !! BrightnessProperty)).
Proof.
  intros Hkeys. run_ctl.
  destruct (truthy t) eqn:Ht; simpl;
    destruct (truthy b) eqn:Hb; simpl;
    repeat ctl_branch; rewrite Hkeys in *; simpl in *; simplify_eq;
    eexists _, _; (split; [reflexivity |]); split; intros; try done;
    rewrite ?lookup_insert_ne by done; done.
Qed.

(** The request of the acknowledged path: no lightness among its fields. *)
Lemma set_ctl_request client (t : option Z) (is_tuya : bool) (s : Node) :
  requests (set_ctl client t is_tuya s).2 = requests s \/
  exists idx T,
    requests (set_ctl client t is_tuya s).2 = requests s ++ [Client.set_ctl [unicast s] idx T].
Proof.
  run_ctl. repeat ctl_branch; eauto.
Qed.

Lemma clamp_kelvin_config (s s' : Node) (k : Z) :
  config s = config s' -> _clamp_kelvin s k = _clamp_kelvin s' k.
Proof.
  intros H. unfold _clamp_kelvin, _kelvin_limits, _mired_limits. by rewrite H.
Qed.

(** The unacknowledged path on a temperature that the clamp leaves alone. *)
Lemma set_ctl_unack_temperature client (s : Node) (K : Z) (is_tuya : bool) :
  K <> 0 -> _clamp_kelvin s K = K ->
  notifications (set_ctl_unack client (Some K) None is_tuya s).2
    = notifications s ++ [(TemperatureProperty, VInt K)] /\
  _retained (set_ctl_unack client (Some K) None is_tuya s).2 !! TemperatureProperty
    = Some (VInt K) /\
  forall idx key_rest keys_rest,
    app_keys (_app s) = (idx :: key_rest) :: keys_rest ->
    requests (set_ctl_unack client (Some K) None is_tuya s).2
      = requests s ++
        [Client.set_ctl_unack (unicast s) idx
           (VInt (if is_tuya then kelvin_to_tuya_level s K else K))
           (default (VInt BLE_MESH_MAX_LIGHTNESS) (_retained s !! BrightnessProperty))].
Proof.
  intros HK Hfix. run_ctl.
  assert (Htruthy : negb (K =? 0) = true) by (apply negb_true_iff, Z.eqb_neq, HK).
  rewrite !Htruthy; simpl. rewrite !Hfix, !Htruthy; simpl.
  split; [by repeat ctl_branch |].
  split; [by repeat ctl_branch; rewrite lookup_insert_eq |].
  intros idx key_rest keys_rest Hkeys.
  rewrite lookup_insert_ne by done.
  destruct is_tuya; simpl; rewrite Hkeys; simpl;
    repeat ctl_branch; try done;
    by erewrite tuya_level_config by reflexivity.
Qed.

(** The acknowledged path on a temperature that the clamp leaves alone. *)
Lemma set_ctl_temperature client (s : Node) (K : Z) (is_tuya : bool) :
  K <> 0 -> _clamp_kelvin s K = K ->
  notifications (set_ctl client (Some K) is_tuya s).2
    = notifications s ++ [(TemperatureProperty, VInt K)] /\
  _retained (set_ctl client (Some K) is_tuya s).2 !! TemperatureProperty = Some (VInt K) /\
  forall idx key_rest keys_rest,
    app_keys (_app s) = (idx :: key_rest) :: keys_rest ->
    requests (set_ctl client (Some K) is_tuya s).2
      = requests s ++
        [Client.set_ctl [unicast s] idx
           (VInt (if is_tuya then kelvin_to_tuya_level s K else K))].
Proof.
  intros HK Hfix. run_ctl.
  assert (Htruthy : negb (K =? 0) = true) by (apply negb_true_iff, Z.eqb_neq, HK).
  rewrite !Htruthy; simpl. rewrite !Hfix, !Htruthy; simpl.
  split; [by repeat ctl_branch |].
  split; [by repeat ctl_branch; rewrite lookup_insert_eq |].
  intros idx key_rest keys_rest Hkeys.
  destruct is_tuya; simpl; rewrite Hkeys; simpl;
    repeat ctl_branch; try done;
    by erewrite tuya_level_config by reflexivity.
Qed.






(** C4, the acknowledged path: [set_ctl] issues at most one request, and that
    request has no lightness field, so the retained brightness is not
    substituted in it; on a light that retains the brightness 1000, setting
    3000 Kelvin sends the retained 1000 on the unacknowledged path and no
    lightness at all on the acknowledged one. *)
Theorem C4_acknowledged_request_lacks_lightness
        (client : list Client.request -> Client.request -> Client.outcome)
        (s : Node) (t : option Z) (is_tuya : bool) :
  (requests (set_ctl client t is_tuya s).2 = requests s \/
   exists idx T,
     requests (set_ctl client t is_tuya s).2 = requests s ++ [Client.set_ctl [unicast s] idx T] /\
     Client.ctl_lightness_of (Client.set_ctl [unicast s] idx T) = None) /\
  _retained dimmed_light !! BrightnessProperty = Some (VInt 1000) /\
  requests (kelvin silent_client (Some 3000) true dimmed_light).2
    = [Client.set_ctl [170] 0 (VInt 3000)] /\
  requests (kelvin silent_client (Some 3000) false dimmed_light).2
    = [Client.set_ctl_unack 170 0 (VInt 3000) (VInt 1000)].
Proof.
  split.
  - destruct (set_ctl_request client t is_tuya s) as [H | (idx & T & H)]; [by left |].
    right. by exists idx, T.
  - repeat split; by vm_compute.
Qed.

(** C7: for a positive mired value the mireds command computes
    [max(1, 1000000 // mired)], clamps it with [_clamp_kelvin], notifies and
    retains that temperature and sends it (rescaled for Tuya devices); with
    the default limits 370 mireds give 2702 Kelvin, inside the range
    800..20000 and unchanged by the clamp. *)
Theorem C7_mireds_command
        (client : list Client.request -> Client.request -> Client.outcome)
        (s : Node) (mired : Z) (ack is_tuya : bool) :
  0 < mired ->
  LightCTLServer ∈ _bound_models s ->
  let K := _clamp_kelvin s (Z.max 1 (1000000 `div` mired)) in
  (notifications (mireds_to_kelvin client mired ack is_tuya s).2
     = notifications s ++ [(TemperatureProperty, VInt K)] /\
   _retained (mireds_to_kelvin client mired ack is_tuya s).2 !! TemperatureProperty
     = Some (VInt K) /\
   forall idx key_rest keys_rest,
     app_keys (_app s) = (idx :: key_rest) :: keys_rest ->
     requests (mireds_to_kelvin client mired ack is_tuya s).2
       = requests s ++
         [if ack
          then Client.set_ctl [unicast s] idx
                 (VInt (if is_tuya then kelvin_to_tuya_level s K else K))
          else Client.set_ctl_unack (unicast s) idx
                 (VInt (if is_tuya then kelvin_to_tuya_level s K else K))
                 (default (VInt 65535) (_retained s !! BrightnessProperty))]) /\
  (Z.max 1 (1000000 `div` 370) = 2702 /\
   _kelvin_limits default_light = (800, 20000) /\
   _clamp_kelvin default_light 2702 = 2702).
Proof.
  intros Hpos Hbound K. split; [| by vm_compute].
  assert (HK : K <> 0).
  { pose proof (clamp_kelvin_positive s (Z.max 1 (1000000 `div` mired))). unfold K. lia. }
  set (s' := with_logging (logging s ++ [INFO]) s).
  assert (Hfix : _clamp_kelvin s' K = K).
  { rewrite (clamp_kelvin_config s' s) by done. unfold K. apply clamp_kelvin_fixed, clamp_kelvin_in_range. }
  assert (Hrun : mireds_to_kelvin client mired ack is_tuya s =
                 if ack then set_ctl client (Some K) is_tuya s'
                 else set_ctl_unack client (Some K) None is_tuya s').
  { unfold mireds_to_kelvin, _is_model_bound, self, log, modify, raise, mbind, M_bind, bind, ret.
    simpl. rewrite bool_decide_eq_true_2 by done.
    destruct (Z.eqb_spec mired 0); [lia |]. by destruct ack. }
  rewrite Hrun.
  rewrite (tuya_level_config s s') by done.
  destruct ack.
  - apply (set_ctl_temperature client s' K is_tuya HK Hfix).
  - apply (set_ctl_unack_temperature client s' K is_tuya HK Hfix).
Qed.

Lemma C7_mireds_command_witness :
  notifications (mireds_to_kelvin silent_client 370 false false dimmed_light).2
    = notifications dimmed_light ++ [(TemperatureProperty, VInt 2702)].
Proof.
  assert (Hpos : 0 < 370) by lia.
  assert (Hbound : LightCTLServer ∈ _bound_models dimmed_light) by (by vm_compute).
  destruct (C7_mireds_command silent_client dimmed_light 370 false false Hpos Hbound)
    as [(Hn & _) _].
  exact Hn.
Defined.

(** ** Queries *)

Ltac run_query :=
  unfold get_availability, get_onoff, get_lightness, get_lightness_range, get_ctl,
    get_light_temperature_range, get_logged, attempt, subscript, field,
    _availability_success, _availability_failure, notify, call, first_app_key,
    log, modify, self, raise, mbind, M_bind, bind, ret; simpl.

Ltac query_entry :=
  match goal with
  | |- context [match ?x with _ => _ end] =>
      match type of x with
      | Client.entry => destruct x eqn:?
      end
  end; simpl.

(** The availability probe absorbs every answer and every [Exception]: it
    returns normally unless the client raises outside [Exception]. *)
Lemma get_availability_absorbs
      (client : list Client.request -> Client.request -> Client.outcome) (s : Node) :
  (get_availability client s).1 = Ok tt \/
  exists e, is_Exception e = false /\ (get_availability client s).1 = Raise e.
Proof.
  run_query.
  repeat (first [ctl_branch | query_entry]); eauto.
Qed.

(** C2 fails on the ad hoc queries: when the answer of the client has no
    entry for the node, [get_onoff], [get_lightness], [get_lightness_range],
    [get_ctl] and [get_light_temperature_range] raise [KeyError] (and
    [TypeError] when the answer is [None]), and they let an exception of the
    client through, where [get_availability] returns normally and counts a
    failure; an error-typed entry is dropped without a warning. *)
Theorem C2_query_raises_on_missing_entry :
  (get_onoff empty_reply_client default_light).1 = Raise KeyError /\
  (get_lightness empty_reply_client default_light).1 = Raise KeyError /\
  (get_lightness_range empty_reply_client default_light).1 = Raise KeyError /\
  (get_ctl empty_reply_client default_light).1 = Raise KeyError /\
  (get_light_temperature_range empty_reply_client default_light).1 = Raise KeyError /\
  (get_onoff silent_client default_light).1 = Raise TypeError /\
  (get_onoff failing_client default_light).1 = Raise (ClientError "timeout") /\
  ((get_availability failing_client default_light).1 = Ok tt /\
   _availability_failures (get_availability failing_client default_light).2 = 1) /\
  ((get_availability empty_reply_client default_light).1 = Ok tt /\
   _availability_failures (get_availability empty_reply_client default_light).2 = 1 /\
   logging (get_availability empty_reply_client default_light).2 = [WARNING]) /\
  ((get_onoff error_entry_client default_light).1 = Ok tt /\
   logging (get_onoff error_entry_client default_light).2 = []).
Proof. repeat split; by vm_compute. Qed.

(** * Further properties of the conversion engine *)

(** The integer nearest to a quotient, from a bound on the numerator. *)
Lemma round_div_unique (n k m : Z) :
  0 < k -> (2 * m - 1) * k < 2 * n -> 2 * n < (2 * m + 1) * k ->
  round (inject_Z n / inject_Z k) = m.
Proof.
  intros Hk Hlo Hhi.
  assert (HkQ : (0 < inject_Z k)%Q) by (change 0%Q with (inject_Z 0); by rewrite <- Zlt_Qlt).
  assert (H1 : (inject_Z m - (1 # 2) < inject_Z n / inject_Z k)%Q).
  { apply Qlt_shift_div_l; [done |].
    rewrite Zlt_Qlt in Hlo. unfold Z.sub in Hlo.
    rewrite ?inject_Z_mult, ?inject_Z_plus, ?inject_Z_mult, ?inject_Z_opp in Hlo.
    change (inject_Z 2) with 2%Q in Hlo. change (inject_Z 1) with 1%Q in Hlo.
    assert (E : ((inject_Z m - (1 # 2)) * inject_Z k
                 == (1 # 2) * ((2 * inject_Z m + - (1)) * inject_Z k))%Q) by ring.
    rewrite E. generalize dependent ((2 * inject_Z m + - (1)) * inject_Z k)%Q.
    generalize (inject_Z n). intros N X HX _. lra. }
  assert (H2 : (inject_Z n / inject_Z k < inject_Z m + (1 # 2))%Q).
  { apply Qlt_shift_div_r; [done |].
    rewrite Zlt_Qlt in Hhi.
    rewrite ?inject_Z_mult, ?inject_Z_plus, ?inject_Z_mult in Hhi.
    change (inject_Z 2) with 2%Q in Hhi. change (inject_Z 1) with 1%Q in Hhi.
    assert (E : ((inject_Z m + (1 # 2)) * inject_Z k
                 == (1 # 2) * ((2 * inject_Z m + 1) * inject_Z k))%Q) by ring.
    rewrite E. generalize dependent ((2 * inject_Z m + 1) * inject_Z k)%Q.
    generalize (inject_Z n). intros N X HX. lra. }
  generalize dependent (inject_Z n / inject_Z k)%Q. intros q H1 H2.
  pose proof (Qfloor_le q) as Hf1. pose proof (Qlt_floor q) as Hf2.
  rewrite inject_Z_plus in Hf2. change (inject_Z 1) with 1%Q in Hf2.
  assert (Hcase : Qfloor q = m \/ Qfloor q = m - 1).
  { destruct (Z_lt_le_dec m (Qfloor q)) as [Hgt | Hle].
    - exfalso. assert (Hq : (inject_Z m + 1 <= inject_Z (Qfloor q))%Q).
      { change 1%Q with (inject_Z 1). rewrite <- inject_Z_plus, <- Zle_Qle. lia. }
      lra.
    - destruct (Z_lt_le_dec (Qfloor q) (m - 1)) as [Hlt | Hge]; [| lia].
      exfalso. assert (Hq : (inject_Z (Qfloor q) + 2 <= inject_Z m)%Q).
      { change 2%Q with (inject_Z 2). rewrite <- inject_Z_plus, <- Zle_Qle. lia. }
      lra. }
  unfold round. destruct Hcase as [Hc | Hc]; rewrite Hc in *.
  - assert (Hcmp : (q - inject_Z m ?= 1 # 2)%Q = Lt) by (apply (proj1 (Qlt_alt _ _)); lra).
    by rewrite Hcmp.
  - assert (Hm : inject_Z (m - 1) = (inject_Z m - 1)%Q).
    { unfold Z.sub. by rewrite inject_Z_plus, inject_Z_opp. }
    assert (Hcmp : (q - inject_Z (m - 1) ?= 1 # 2)%Q = Gt).
    { apply (proj1 (Qgt_alt _ _)). rewrite Hm. lra. }
    rewrite Hcmp. lia.
Qed.

Lemma million_div_antitone (k1 k2 : Z) :
  0 < k1 -> k1 <= k2 ->
  (inject_Z 1000000 / inject_Z k2 <= inject_Z 1000000 / inject_Z k1)%Q.
Proof.
  intros H1 H2. destruct k1 as [| p1 | p1]; try lia. destruct k2 as [| p2 | p2]; try lia.
  unfold Qle, Qdiv, Qmult, Qinv, inject_Z; simpl. lia.
Qed.

(** X1: the warmer the light, the fewer mireds: [kelvin_to_mireds] is
    non-increasing over all integers, the non-positive ones included (they
    saturate at [max_mired]). *)
Theorem kelvin_to_mireds_antitone (s : Node) (k1 k2 : Z) :
  k1 <= k2 -> kelvin_to_mireds s k2 <= kelvin_to_mireds s k1.
Proof.
  intros Hk. pose proof (mired_limits_ordered s) as [Hlo Hord].
  pose proof (kelvin_to_mireds_in_range s k2) as Hr2.
  unfold kelvin_to_mireds in *. destruct (_mired_limits s) as [lo hi]. simpl in *.
  destruct (Z.leb_spec k1 0) as [H1 | H1]; [lia |].
  destruct (Z.leb_spec k2 0) as [H2 | H2]; [lia |].
  pose proof (round_mono _ _ (million_div_antitone k1 k2 H1 Hk)) as Hround.
  clear Hr2.
  set (r1 := round (inject_Z 1000000 / inject_Z k1)) in *.
  set (r2 := round (inject_Z 1000000 / inject_Z k2)) in *.
  destruct (Z.ltb_spec r2 lo), (Z.gtb_spec r2 hi), (Z.ltb_spec r1 lo), (Z.gtb_spec r1 hi); lia.
Qed.

Lemma kelvin_to_mireds_antitone_witness :
  kelvin_to_mireds default_light 6500 <= kelvin_to_mireds default_light 2700.
Proof.
  apply (kelvin_to_mireds_antitone default_light 2700 6500). lia.
Defined.

(** X2: at both ends the conversion saturates: no Kelvin value at or below
    zero gives less than [max_mired], and every Kelvin value above 2000000
    gives [min_mired]. *)
Theorem kelvin_to_mireds_saturates (s : Node) (k : Z) :
  (k <= 0 -> kelvin_to_mireds s k = (_mired_limits s).2) /\
  (2000000 < k -> kelvin_to_mireds s k = (_mired_limits s).1).
Proof.
  pose proof (mired_limits_ordered s) as [Hlo Hord].
  unfold kelvin_to_mireds. destruct (_mired_limits s) as [lo hi]. simpl in *. split.
  - intros Hk. by destruct (Z.leb_spec k 0); [| lia].
  - intros Hk. destruct (Z.leb_spec k 0); [lia |].
    rewrite (round_div_unique 1000000 k 0) by lia.
    by destruct (Z.ltb_spec 0 lo); [| lia].
Qed.

Lemma kelvin_to_mireds_saturates_witness :
  kelvin_to_mireds default_light (-5) = 1250 /\ kelvin_to_mireds default_light 3000000 = 50.
Proof.
  destruct (kelvin_to_mireds_saturates default_light (-5)) as [Hlow _].
  destruct (kelvin_to_mireds_saturates default_light 3000000) as [_ Hhigh].
  split; [apply Hlow; lia | apply Hhigh; lia].
Defined.

(** X3: a mired value of the configured range that is at most 707 survives
    the trip to Kelvin and back unchanged: [kelvin_to_mireds] undoes
    [max(1, 1000000 // mired)]; from 50 mireds on, the clamp of the mireds
    command does not get in the way either. *)
Theorem mireds_round_trip (s : Node) (m : Z) :
  (_mired_limits s).1 <= m -> m <= (_mired_limits s).2 -> m <= 707 ->
  kelvin_to_mireds s (Z.max 1 (1000000 `div` m)) = m /\
  (50 <= m -> kelvin_to_mireds s (_clamp_kelvin s (Z.max 1 (1000000 `div` m))) = m).
Proof.
  intros Hlo Hhi Hm. pose proof (mired_limits_ordered s) as [Hone Hord].
  assert (Hpos : 1 <= m) by lia.
  pose proof (Z.div_mod 1000000 m ltac:(lia)) as Hdiv.
  pose proof (Z.mod_pos_bound 1000000 m ltac:(lia)) as Hmod.
  set (k := 1000000 `div` m) in *.
  assert (Hk : 2 * m - 1 <= k) by nia.
  assert (Hmax : Z.max 1 k = k) by lia.
  rewrite Hmax.
  assert (Hback : kelvin_to_mireds s k = m).
  { unfold kelvin_to_mireds. destruct (_mired_limits s) as [lo hi]. simpl in *.
    destruct (Z.leb_spec k 0); [lia |].
    rewrite (round_div_unique 1000000 k m) by nia.
    destruct (Z.ltb_spec m lo); [lia |]. by destruct (Z.gtb_spec m hi); [lia |]. }
  split; [done |]. intros Hfifty.
  rewrite clamp_kelvin_fixed; [done |].
  pose proof (kelvin_limits_formula s) as Hf. simpl in Hf.
  assert (H1 : 1000000 `div` (_mired_limits s).2 <= k).
  { apply Z.div_le_compat_l; lia. }
  assert (H2 : k <= 1000000 `div` (_mired_limits s).1).
  { apply Z.div_le_compat_l; lia. }
  assert (H3 : 800 <= k) by (unfold k; apply Z.div_le_lower_bound; lia).
  assert (H4 : k <= 20000) by (unfold k; apply Z.div_le_upper_bound; lia).
  unfold BLE_MESH_MIN_TEMPERATURE, BLE_MESH_MAX_TEMPERATURE in Hf.
  destruct (Z.gtb_spec (Z.max 800 (1000000 `div` (_mired_limits s).2))
                       (Z.min 20000 (1000000 `div` (_mired_limits s).1)));
    rewrite Hf; simpl; lia.
Qed.

Lemma mireds_round_trip_witness :
  kelvin_to_mireds default_light (_clamp_kelvin default_light (Z.max 1 (1000000 `div` 370)))
  = 370.
Proof.
  assert (H1 : (_mired_limits default_light).1 <= 370) by (by vm_compute).
  assert (H2 : 370 <= (_mired_limits default_light).2) by (by vm_compute).
  assert (H3 : 370 <= 707) by lia.
  destruct (mireds_round_trip default_light 370 H1 H2 H3) as [_ Hclamped].
  apply Hclamped. lia.
Defined.

Lemma tuya_level_clamped (s : Node) (k : Z) :
  kelvin_to_tuya_level s (_clamp_kelvin s k) = kelvin_to_tuya_level s k.
Proof.
  unfold kelvin_to_tuya_level.
  by rewrite (clamp_kelvin_fixed s (_clamp_kelvin s k)) by apply clamp_kelvin_in_range.
Qed.

(** X4: whatever the configuration and the argument, the level sent to a
    Tuya device lies in the mesh range 800..20000. *)
Theorem tuya_level_in_mesh_range (s : Node) (k : Z) :
  800 <= kelvin_to_tuya_level s k /\ kelvin_to_tuya_level s k <= 20000.
Proof.
  rewrite <- tuya_level_clamped.
  pose proof (clamp_kelvin_in_range s k) as [Hlo Hhi].
  pose proof (tuya_level_mono s _ _ Hlo) as H1.
  pose proof (tuya_level_mono s _ _ Hhi) as H2.
  rewrite tuya_level_at_min in H1.
  pose proof (kelvin_limits_ordered s) as Hord.
  destruct (Z.eq_dec (_kelvin_limits s).1 (_kelvin_limits s).2) as [Heq | Hne].
  - rewrite (tuya_level_degenerate s (_kelvin_limits s).2 Heq) in H2.
    unfold BLE_MESH_MIN_TEMPERATURE in *. lia.
  - rewrite (tuya_level_at_max s) in H2 by lia.
    unfold BLE_MESH_MIN_TEMPERATURE, BLE_MESH_MAX_TEMPERATURE in *. lia.
Qed.

(** X5: when the Kelvin range is the full mesh range 800..20000 (as with the
    default mired limits) the Tuya rescaling changes nothing on that range. *)
Theorem tuya_level_identity_on_full_range (s : Node) (k : Z) :
  _kelvin_limits s = (800, 20000) -> 800 <= k -> k <= 20000 ->
  kelvin_to_tuya_level s k = k.
Proof.
  intros Hlim Hlo Hhi.
  rewrite tuya_level_proper by (rewrite Hlim; simpl; lia).
  rewrite clamp_kelvin_fixed by (rewrite Hlim; simpl; lia).
  rewrite Hlim. simpl.
  etransitivity; [| apply (round_inject_Z k)].
  apply round_comp. unfold Z.sub. rewrite inject_Z_plus, inject_Z_opp.
  unfold BLE_MESH_MAX_TEMPERATURE, BLE_MESH_MIN_TEMPERATURE.
  change (inject_Z (20000 + - 800)) with (19200 # 1)%Q.
  change (inject_Z 800) with (800 # 1)%Q.
  generalize (inject_Z k). intros x. rewrite Qdiv_mult_l by discriminate. ring.
Qed.

Lemma tuya_level_identity_witness : kelvin_to_tuya_level default_light 2702 = 2702.
Proof.
  apply (tuya_level_identity_on_full_range default_light 2702); [by vm_compute | lia | lia].
Defined.

(** X6: the Kelvin range never leaves 0..1000000, and it stays inside the
    mesh range 800..20000 as soon as the mired range meets 50..1250: only a
    mired range wholly below 50 or wholly above 1250 can take it out. *)
Theorem kelvin_limits_bounds (s : Node) :
  (0 <= (_kelvin_limits s).1 /\ (_kelvin_limits s).2 <= 1000000) /\
  ((_mired_limits s).1 <= 1250 -> 50 <= (_mired_limits s).2 ->
   800 <= (_kelvin_limits s).1 /\ (_kelvin_limits s).2 <= 20000).
Proof.
  pose proof (mired_limits_ordered s) as [Hone Hord].
  pose proof (kelvin_limits_formula s) as Hf. simpl in Hf.
  unfold BLE_MESH_MIN_TEMPERATURE, BLE_MESH_MAX_TEMPERATURE in Hf.
  assert (H0lo : 0 <= 1000000 `div` (_mired_limits s).1) by (apply Z.div_pos; lia).
  assert (H0hi : 0 <= 1000000 `div` (_mired_limits s).2) by (apply Z.div_pos; lia).
  assert (H1lo : 1000000 `div` (_mired_limits s).1 <= 1000000)
    by (apply Z.div_le_upper_bound; lia).
  assert (H1hi : 1000000 `div` (_mired_limits s).2 <= 1000000)
    by (apply Z.div_le_upper_bound; lia).
  assert (Hanti : 1000000 `div` (_mired_limits s).2 <= 1000000 `div` (_mired_limits s).1)
    by (apply Z.div_le_compat_l; lia).
  split.
  - destruct (Z.gtb_spec (Z.max 800 (1000000 `div` (_mired_limits s).2))
                         (Z.min 20000 (1000000 `div` (_mired_limits s).1)));
      rewrite Hf; simpl; lia.
  - intros Hlo Hhi.
    assert (H800 : 800 <= 1000000 `div` (_mired_limits s).1)
      by (apply Z.div_le_lower_bound; lia).
    assert (H20000 : 1000000 `div` (_mired_limits s).2 <= 20000)
      by (apply Z.div_le_upper_bound; lia).
    destruct (Z.gtb_spec (Z.max 800 (1000000 `div` (_mired_limits s).2))
                         (Z.min 20000 (1000000 `div` (_mired_limits s).1)));
      rewrite Hf; simpl; lia.
Qed.

Lemma kelvin_limits_bounds_witness :
  800 <= (_kelvin_limits inverted_light).1 /\ (_kelvin_limits inverted_light).2 <= 20000.
Proof.
  destruct (kelvin_limits_bounds inverted_light) as [_ Hin].
  apply Hin; by vm_compute.
Defined.

(** * Further properties of the commands *)

Ltac run_command :=
  unfold set_brightness, set_lightness_unack, set_lightness, turn_on, turn_off,
    set_onoff_unack, set_onoff, kelvin, mireds_to_kelvin, _is_model_bound,
    notify, call, first_app_key, log, modify, self, raise, mbind, M_bind, bind, ret; simpl.

Lemma lightness_cap (l : Z) :
  (if l >? BLE_MESH_MAX_LIGHTNESS then BLE_MESH_MAX_LIGHTNESS else l) = Z.min l 65535.
Proof. unfold BLE_MESH_MAX_LIGHTNESS. destruct (Z.gtb_spec l 65535); lia. Qed.

(** X7: with the lightness model bound, [set_brightness] caps the level at
    65535, and retains and notifies the capped level whether or not the
    request then goes through; when the application has a key, exactly one
    request is issued and it carries that same level. *)
Theorem set_brightness_caps_and_notifies
        (client : list Client.request -> Client.request -> Client.outcome)
        (s : Node) (l : Z) (ack : bool) :
  LightLightnessServer ∈ _bound_models s ->
  notifications (set_brightness client l ack s).2
    = notifications s ++ [(BrightnessProperty, VInt (Z.min l 65535))] /\
  _retained (set_brightness client l ack s).2 !! BrightnessProperty
    = Some (VInt (Z.min l 65535)) /\
  forall idx key_rest keys_rest,
    app_keys (_app s) = (idx :: key_rest) :: keys_rest ->
    requests (set_brightness client l ack s).2
      = requests s ++
        [if ack then Client.set_lightness [unicast s] idx (Z.min l 65535)
         else Client.set_lightness_unack (unicast s) idx (Z.min l 65535)].
Proof.
  intros Hbound. run_command. rewrite bool_decide_eq_true_2 by done.
  rewrite lightness_cap.
  split; [destruct ack; simpl; by repeat ctl_branch |].
  split; [destruct ack; simpl; repeat ctl_branch; by rewrite lookup_insert_eq |].
  intros idx key_rest keys_rest Hkeys.
  destruct ack; simpl; rewrite Hkeys; simpl; by repeat ctl_branch.
Qed.

Lemma set_brightness_caps_witness :
  notifications (set_brightness failing_client 70000 false
                   (with_bound_models {[LightLightnessServer]} default_light)).2
  = [(BrightnessProperty, VInt 65535)].
Proof.
  assert (Hbound : LightLightnessServer
                   ∈ _bound_models (with_bound_models {[LightLightnessServer]} default_light))
    by (by vm_compute).
  destruct (set_brightness_caps_and_notifies failing_client _ 70000 false Hbound) as [Hn _].
  exact Hn.
Defined.

(** X8: a brightness or temperature command on a light whose model is not
    bound does nothing at all: no notification, no request, no log line, no
    exception (not even for a zero mired value). *)
Theorem unbound_commands_do_nothing
        (client : list Client.request -> Client.request -> Client.outcome)
        (s : Node) (l mired : Z) (t : option Z) (ack is_tuya : bool) :
  (LightLightnessServer ∉ _bound_models s -> set_brightness client l ack s = (Ok tt, s)) /\
  (LightCTLServer ∉ _bound_models s ->
   kelvin client t ack s = (Ok tt, s) /\
   mireds_to_kelvin client mired ack is_tuya s = (Ok tt, s)).
Proof.
  split.
  - intros H. run_command. by rewrite bool_decide_eq_false_2.
  - intros H. run_command. by rewrite bool_decide_eq_false_2.
Qed.

Lemma unbound_commands_witness :
  set_brightness silent_client 100 false default_light = (Ok tt, default_light) /\
  mireds_to_kelvin silent_client 0 false false default_light = (Ok tt, default_light).
Proof.
  destruct (unbound_commands_do_nothing silent_client default_light 100 0 None false false)
    as [Hb Ht].
  split.
  - apply Hb. by vm_compute.
  - apply Ht. by vm_compute.
Defined.

(** The mireds command, once past its guards. *)
Lemma mireds_to_kelvin_run
      (client : list Client.request -> Client.request -> Client.outcome)
      (s : Node) (mired : Z) (ack is_tuya : bool) :
  mired <> 0 -> LightCTLServer ∈ _bound_models s ->
  mireds_to_kelvin client mired ack is_tuya s =
    (if ack
     then set_ctl client (Some (_clamp_kelvin s (Z.max 1 (1000000 `div` mired)))) is_tuya
     else set_ctl_unack client (Some (_clamp_kelvin s (Z.max 1 (1000000 `div` mired))))
                        None is_tuya)
      (with_logging (logging s ++ [INFO]) s).
Proof.
  intros Hm Hbound.
  unfold mireds_to_kelvin, _is_model_bound, self, log, modify, raise, mbind, M_bind, bind, ret.
  simpl. rewrite bool_decide_eq_true_2 by done.
  destruct (Z.eqb_spec mired 0); [done |]. by destruct ack.
Qed.

(** X9: on a bound light a zero mired value raises [ZeroDivisionError]
    before anything is notified, logged or sent, and a mired value below
    zero or above 1000000 is sent as the clamp of 1 Kelvin, the lower end of
    the Kelvin range whenever that end is positive. *)
Theorem mireds_to_kelvin_edges
        (client : list Client.request -> Client.request -> Client.outcome)
        (s : Node) (mired : Z) (ack is_tuya : bool) :
  LightCTLServer ∈ _bound_models s ->
  mireds_to_kelvin client 0 ack is_tuya s = (Raise ZeroDivisionError, s) /\
  (mired < 0 \/ 1000000 < mired ->
   notifications (mireds_to_kelvin client mired ack is_tuya s).2
     = notifications s ++ [(TemperatureProperty, VInt (_clamp_kelvin s 1))] /\
   (1 <= (_kelvin_limits s).1 -> _clamp_kelvin s 1 = (_kelvin_limits s).1)).
Proof.
  intros Hbound. split.
  - unfold mireds_to_kelvin, _is_model_bound, self, log, modify, raise, mbind, M_bind, bind, ret.
    simpl. by rewrite bool_decide_eq_true_2.
  - intros Hout.
    assert (Hone : Z.max 1 (1000000 `div` mired) = 1).
    { destruct Hout as [Hneg | Hbig].
      - pose proof (Z.div_mod 1000000 mired ltac:(lia)) as Hdiv.
        pose proof (Z.mod_neg_bound 1000000 mired Hneg) as Hmod.
        assert (1000000 `div` mired < 0) by nia.
        lia.
      - rewrite Z.div_small by lia. lia. }
    rewrite mireds_to_kelvin_run by (done || lia). rewrite Hone.
    set (s' := with_logging (logging s ++ [INFO]) s).
    assert (HK : _clamp_kelvin s 1 <> 0).
    { pose proof (clamp_kelvin_positive s 1). lia. }
    assert (Hfix : _clamp_kelvin s' (_clamp_kelvin s 1) = _clamp_kelvin s 1).
    { rewrite (clamp_kelvin_config s' s) by done.
      apply clamp_kelvin_fixed, clamp_kelvin_in_range. }
    split.
    + destruct ack.
      * by destruct (set_ctl_temperature client s' _ is_tuya HK Hfix) as [-> _].
      * by destruct (set_ctl_unack_temperature client s' _ is_tuya HK Hfix) as [-> _].
    + intros Hlo. pose proof (kelvin_limits_ordered s).
      destruct (clamp_kelvin_cases s 1) as [[? ?] | [[? ?] | [? ?]]]; lia.
Qed.

Lemma mireds_to_kelvin_edges_witness :
  mireds_to_kelvin silent_client 0 false false dimmed_light
    = (Raise ZeroDivisionError, dimmed_light) /\
  notifications (mireds_to_kelvin silent_client (-3) false false dimmed_light).2
    = notifications dimmed_light ++ [(TemperatureProperty, VInt 800)].
Proof.
  assert (Hbound : LightCTLServer ∈ _bound_models dimmed_light) by (by vm_compute).
  destruct (mireds_to_kelvin_edges silent_client dimmed_light (-3) false false Hbound)
    as [Hzero Hout].
  split; [exact Hzero |].
  destruct Hout as [Hn _]; [left; lia |]. exact Hn.
Defined.

(** X10: switching on or off is not gated by any bound model: the new state
    is retained and notified at once, whether or not the request then goes
    through, and when the application has a key exactly one request is
    issued, acknowledged or not as asked. *)
Theorem turn_on_off_optimistic
        (client : list Client.request -> Client.request -> Client.outcome)
        (s : Node) (ack : bool) :
  (notifications (turn_on client ack s).2 = notifications s ++ [(OnOffProperty, VBool true)] /\
   _retained (turn_on client ack s).2 !! OnOffProperty = Some (VBool true)) /\
  (notifications (turn_off client ack s).2 = notifications s ++ [(OnOffProperty, VBool false)] /\
   _retained (turn_off client ack s).2 !! OnOffProperty = Some (VBool false)) /\
  forall idx key_rest keys_rest,
    app_keys (_app s) = (idx :: key_rest) :: keys_rest ->
    requests (turn_on client ack s).2
      = requests s ++ [if ack then Client.set_onoff (unicast s) idx true
                       else Client.set_onoff_unack (unicast s) idx true] /\
    requests (turn_off client ack s).2
      = requests s ++ [if ack then Client.set_onoff (unicast s) idx false
                       else Client.set_onoff_unack (unicast s) idx false].
Proof.
  run_command.
  split; [split; destruct ack; simpl; repeat ctl_branch; by rewrite ?lookup_insert_eq |].
  split; [split; destruct ack; simpl; repeat ctl_branch; by rewrite ?lookup_insert_eq |].
  intros idx key_rest keys_rest Hkeys.
  split; destruct ack; simpl; rewrite Hkeys; simpl; by repeat ctl_branch.
Qed.

Lemma turn_on_off_witness :
  requests (turn_on silent_client true default_light).2 = [Client.set_onoff 170 0 true].
Proof.
  destruct (turn_on_off_optimistic silent_client default_light true) as (_ & _ & Hreq).
  destruct (Hreq 0 [0] [] eq_refl) as [Hon _]. exact Hon.
Defined.

(** What an unacknowledged CTL command sends is what the cache holds
    afterwards, defaults apart. *)
Lemma set_ctl_unack_sends_retained
      (client : list Client.request -> Client.request -> Client.outcome)
      (t b : option Z) (s : Node) idx key_rest keys_rest :
  app_keys (_app s) = (idx :: key_rest) :: keys_rest ->
  exists T L,
    requests (set_ctl_unack client t b false s).2
      = requests s ++ [Client.set_ctl_unack (unicast s) idx T L] /\
    default (VInt BLE_MESH_MAX_TEMPERATURE)
            (_retained (set_ctl_unack client t b false s).2 !! TemperatureProperty) = T /\
    default (VInt BLE_MESH_MAX_LIGHTNESS)
            (_retained (set_ctl_unack client t b false s).2 !! BrightnessProperty) = L /\
    _app (set_ctl_unack client t b false s).2 = _app s /\
    unicast (set_ctl_unack client t b false s).2 = unicast s.
Proof.
  intros Hkeys. run_ctl.
  repeat ctl_branch; rewrite Hkeys in *; simpl in *; simplify_eq;
    eexists _, _; (split; [reflexivity |]);
    rewrite ?lookup_insert_eq, ?lookup_insert_ne by done;
    rewrite ?lookup_insert_eq, ?lookup_insert_ne by done; done.
Qed.

(** X11: a partial update does not regress the other field: after any
    unacknowledged CTL command, a command that names neither temperature nor
    brightness sends again exactly the temperature and the lightness of the
    request before. *)
Theorem set_ctl_unack_resends_last_values
        (client : list Client.request -> Client.request -> Client.outcome)
        (t b : option Z) (s : Node) idx key_rest keys_rest :
  app_keys (_app s) = (idx :: key_rest) :: keys_rest ->
  exists T L,
    requests (set_ctl_unack client t b false s).2
      = requests s ++ [Client.set_ctl_unack (unicast s) idx T L] /\
    requests (set_ctl_unack client None None false (set_ctl_unack client t b false s).2).2
      = requests s ++ [Client.set_ctl_unack (unicast s) idx T L;
                       Client.set_ctl_unack (unicast s) idx T L].
Proof.
  intros Hkeys.
  destruct (set_ctl_unack_sends_retained client t b s _ _ _ Hkeys)
    as (T & L & Hreq & HT & HL & Happ & Huni).
  exists T, L. split; [done |].
  set (s1 := (set_ctl_unack client t b false s).2) in *.
  assert (Hkeys1 : app_keys (_app s1) = (idx :: key_rest) :: keys_rest) by (by rewrite Happ).
  destruct (set_ctl_unack_request client None None s1 _ _ _ Hkeys1)
    as (T' & L' & Hreq' & HT' & HL').
  rewrite Hreq', Hreq, HT', HL', HT, HL, Huni by done.
  by rewrite <- app_assoc.
Qed.

Lemma set_ctl_unack_resends_witness :
  exists T L,
    requests (set_ctl_unack silent_client (Some 3000) (Some 500) false default_light).2
      = requests default_light ++ [Client.set_ctl_unack (unicast default_light) 0 T L] /\
    requests (set_ctl_unack silent_client None None false
                (set_ctl_unack silent_client (Some 3000) (Some 500) false default_light).2).2
      = requests default_light ++ [Client.set_ctl_unack (unicast default_light) 0 T L;
                                   Client.set_ctl_unack (unicast default_light) 0 T L].
Proof.
  apply (set_ctl_unack_resends_last_values silent_client (Some 3000) (Some 500)
           default_light 0 [0] []).
  reflexivity.
Defined.



(** * Further properties of polling, queries and callbacks *)

Ltac run_poll :=
  unfold get_availability, get_onoff, get_lightness, get_lightness_range, get_ctl,
    get_light_temperature_range, get_logged, refresh_state, supports, lightness_cb,
    attempt, subscript, field, notify, call, first_app_key,
    log, modify, self, raise, mbind, M_bind, bind, ret; simpl.

Ltac poll_branch := first [ctl_branch | query_entry].

Lemma tracker_success_congr (s s' : Node) :
  tracker s = tracker s' ->
  tracker (_availability_success s).2 = tracker (_availability_success s').2.
Proof.
  unfold tracker. intros [= Hf Hst Ht Hn Hr]. run_method.
  rewrite Hst. case_bool_decide; simpl; by rewrite ?Hst, ?Ht, ?Hn, ?Hr.
Qed.

Lemma tracker_failure_congr (s s' : Node) :
  tracker s = tracker s' ->
  tracker (_availability_failure s).2 = tracker (_availability_failure s').2.
Proof.
  unfold tracker. intros [= Hf Hst Ht Hn Hr]. run_method.
  rewrite Hf, Ht, Hst.
  destruct (_ >=? _); simpl; [case_bool_decide; simpl |]; by rewrite ?Hf, ?Hst, ?Ht, ?Hn, ?Hr.
Qed.

Lemma replay_tracker_congr (history : list probe) (s s' : Node) :
  tracker s = tracker s' -> tracker (replay history s) = tracker (replay history s').
Proof.
  revert s s'. induction history as [| p history IH]; intros s s' H; simpl; [done |].
  apply IH. destruct p; simpl; [by apply tracker_success_congr | by apply tracker_failure_congr].
Qed.

(** Recording an outcome always returns, and touches neither the requests,
    nor the log, nor the identity of the node. *)
Lemma record_frame (p : probe) (s : Node) :
  (record p s).1 = Ok tt /\
  requests (record p s).2 = requests s /\
  logging (record p s).2 = logging s /\
  unicast (record p s).2 = unicast s /\
  _app (record p s).2 = _app s.
Proof. destruct p; unfold record; run_method; repeat ctl_branch; repeat split; reflexivity. Qed.

(** The poll, once its request is out. *)
Lemma get_availability_run
      (client : list Client.request -> Client.request -> Client.outcome)
      (s : Node) idx key_rest keys_rest :
  app_keys (_app s) = (idx :: key_rest) :: keys_rest ->
  get_availability client s =
    let s1 := with_requests (requests s ++ [Client.get_light_status [unicast s] idx]) s in
    match poll_verdict (unicast s)
                       (client (requests s) (Client.get_light_status [unicast s] idx)) with
    | Alive => _availability_success s1
    | Failed => _availability_failure (with_logging (logging s1 ++ [WARNING]) s1)
    | Escapes e => (Raise e, s1)
    end.
Proof.
  intros Hkeys.
  unfold poll_verdict, get_availability, attempt, call, first_app_key, log, modify, self,
    raise, mbind, M_bind, bind, ret. simpl. rewrite Hkeys. simpl.
  destruct (client (requests s) (Client.get_light_status [unicast s] idx)) as [state | e];
    simpl.
  - by destruct (default ∅ state !! unicast s) as [[| e | fields] |].
  - by destruct (is_Exception e).
Qed.

(** X13: what a poll does to the tracker is decided by the outcome of its
    one request: a dictionary entry for the node counts as a success, every
    other answer and every [Exception] as a failure with a warning, and an
    exception outside [Exception] passes through with the tracker untouched.
    Without an application key the poll counts a failure and sends
    nothing. *)
Theorem get_availability_verdict
        (client : list Client.request -> Client.request -> Client.outcome) (s : Node) :
  (forall idx key_rest keys_rest,
      app_keys (_app s) = (idx :: key_rest) :: keys_rest ->
      requests (get_availability client s).2
        = requests s ++ [Client.get_light_status [unicast s] idx] /\
      match poll_verdict (unicast s)
                         (client (requests s) (Client.get_light_status [unicast s] idx)) with
      | Alive =>
          (get_availability client s).1 = Ok tt /\
          tracker (get_availability client s).2 = tracker (_availability_success s).2 /\
          logging (get_availability client s).2 = logging s
      | Failed =>
          (get_availability client s).1 = Ok tt /\
          tracker (get_availability client s).2 = tracker (_availability_failure s).2 /\
          logging (get_availability client s).2 = logging s ++ [WARNING]
      | Escapes e =>
          (get_availability client s).1 = Raise e /\
          tracker (get_availability client s).2 = tracker s
      end) /\
  (app_keys (_app s) = [] ->
   (get_availability client s).1 = Ok tt /\
   tracker (get_availability client s).2 = tracker (_availability_failure s).2 /\
   requests (get_availability client s).2 = requests s).
Proof.
  split.
  - intros idx key_rest keys_rest Hkeys.
    rewrite (get_availability_run client s _ _ _ Hkeys). cbv zeta.
    set (s1 := with_requests (requests s ++ [Client.get_light_status [unicast s] idx]) s).
    destruct (poll_verdict (unicast s)
                (client (requests s) (Client.get_light_status [unicast s] idx))).
    + destruct (record_frame Success s1) as (Hok & Hreq & Hlog & _).
      unfold record in Hok, Hreq, Hlog. rewrite Hreq, Hlog, Hok.
      by rewrite (tracker_success_congr s1 s).
    + destruct (record_frame Failure (with_logging (logging s1 ++ [WARNING]) s1))
        as (Hok & Hreq & Hlog & _).
      unfold record in Hok, Hreq, Hlog. rewrite Hreq, Hlog, Hok.
      by rewrite (tracker_failure_congr (with_logging (logging s1 ++ [WARNING]) s1) s).
    + done.
  - intros Hkeys.
    unfold get_availability, attempt, call, first_app_key, log, modify, self,
      raise, mbind, M_bind, bind, ret. simpl. rewrite Hkeys. simpl.
    destruct (record_frame Failure (with_logging (logging s ++ [WARNING]) s))
      as (Hok & Hreq & _).
    unfold record in Hok, Hreq. rewrite Hreq, Hok.
    by rewrite (tracker_failure_congr (with_logging (logging s ++ [WARNING]) s) s).
Qed.

Lemma get_availability_verdict_witness :
  tracker (get_availability failing_client default_light).2
    = tracker (_availability_failure default_light).2 /\
  requests (get_availability failing_client default_light).2
    = [Client.get_light_status [170] 0].
Proof.
  destruct (get_availability_verdict failing_client default_light) as [Hkey _].
  destruct (Hkey 0 [0] [] eq_refl) as [Hreq Hverdict].
  split; [exact (proj1 (proj2 Hverdict)) | exact Hreq].
Defined.

(** A poll that can only fail. *)
Lemma get_availability_failing
      (client : list Client.request -> Client.request -> Client.outcome) (s : Node) :
  (forall r, poll_verdict (unicast s) (client (requests s) r) = Failed) ->
  (get_availability client s).1 = Ok tt /\
  tracker (get_availability client s).2 = tracker (_availability_failure s).2 /\
  unicast (get_availability client s).2 = unicast s.
Proof.
  intros Hfail.
  assert (Hnokey :
    app_keys (_app s) !! 0%nat ≫= (.!! 0%nat) = None ->
    get_availability client s = _availability_failure (with_logging (logging s ++ [WARNING]) s)).
  { intros Hnone.
    unfold get_availability, attempt, call, first_app_key, log, modify, self,
      raise, mbind, M_bind, bind, ret.
    cbn beta. unfold mbind in Hnone. by rewrite Hnone. }
  destruct (app_keys (_app s)) as [| [| idx key_rest] keys_rest] eqn:Hkeys.
  - rewrite Hnokey by done.
    destruct (record_frame Failure (with_logging (logging s ++ [WARNING]) s))
      as (Hok & _ & _ & Huni & _).
    unfold record in Hok, Huni. rewrite Hok, Huni.
    split; [done |]. split; [| done]. by apply tracker_failure_congr.
  - rewrite Hnokey by done.
    destruct (record_frame Failure (with_logging (logging s ++ [WARNING]) s))
      as (Hok & _ & _ & Huni & _).
    unfold record in Hok, Huni. rewrite Hok, Huni.
    split; [done |]. split; [| done]. by apply tracker_failure_congr.
  - specialize (Hfail (Client.get_light_status [unicast s] idx)).
    rewrite (get_availability_run client s _ _ _ Hkeys). cbv zeta. rewrite Hfail.
    set (s1 := with_requests (requests s ++ [Client.get_light_status [unicast s] idx]) s).
    destruct (record_frame Failure (with_logging (logging s1 ++ [WARNING]) s1))
      as (Hok & _ & _ & Huni & _).
    unfold record in Hok, Huni. rewrite Hok, Huni.
    split; [done |]. split; [| done]. by apply tracker_failure_congr.
Qed.

Lemma refresh_tracker
      (client : list Client.request -> Client.request -> Client.outcome) (address : Z) :
  (forall h r, poll_verdict address (client h r) = Failed) ->
  forall (rounds : nat) (s : Node),
    unicast s = address ->
    (refresh client rounds s).1 = Ok tt /\
    tracker (refresh client rounds s).2 = tracker (replay (repeat Failure rounds) s).
Proof.
  intros Hfail. induction rounds as [| rounds IH]; intros s Huni; simpl; [done |].
  destruct (get_availability_failing client s) as (Hok & Htr & Hu).
  { intros r. rewrite Huni. apply Hfail. }
  unfold mbind, M_bind, bind.
  destruct (get_availability client s) as [[[] | e] s1]; simpl in *; [| done].
  destruct (IH s1) as [IHok IHtr]; [congruence |].
  split; [done |]. rewrite IHtr. by apply replay_tracker_congr.
Qed.

(** Once offline, further failures change neither the state nor the
    notifications. *)
Lemma failures_when_offline (n : nat) (s : Node) :
  _availability_state s = Some "offline"%string ->
  _availability_state (replay (repeat Failure n) s) = Some "offline"%string /\
  notifications (replay (repeat Failure n) s) = notifications s.
Proof.
  revert s. induction n as [| n IH]; intros s Hoff; simpl replay; [done |].
  destruct (failure_effect s) as (_ & _ & _ & Hcase).
  rewrite (bool_decide_eq_true_2 _ Hoff), andb_false_r in Hcase.
  destruct Hcase as [Hst Hn].
  destruct (IH (_availability_failure s).2) as [IHst IHn]; [congruence |].
  by rewrite IHst, IHn, Hn.
Qed.

(** X14: when every poll fails, a fresh light stays in the unknown state,
    without any notification, for the polls before the threshold, and from
    the threshold-th poll on it is offline and has notified
    [availability=offline] exactly once, however long polling goes on; the
    loop itself never raises. *)
Theorem refresh_goes_offline_once
        (client : list Client.request -> Client.request -> Client.outcome)
        (address : Z) (configuration : gmap string Z) (app : Application) (rounds : nat) :
  (forall h r, poll_verdict address (client h r) = Failed) ->
  (refresh client rounds (Light__init__ address configuration app)).1 = Ok tt /\
  (Z.of_nat rounds < _availability_threshold (Light__init__ address configuration app) ->
   _availability_state (refresh client rounds (Light__init__ address configuration app)).2
     = None /\
   notifications (refresh client rounds (Light__init__ address configuration app)).2 = []) /\
  (_availability_threshold (Light__init__ address configuration app) <= Z.of_nat rounds ->
   _availability_state (refresh client rounds (Light__init__ address configuration app)).2
     = Some "offline"%string /\
   notifications (refresh client rounds (Light__init__ address configuration app)).2
     = [("availability"%string, VStr "offline")]).
Proof.
  intros Hfail.
  set (s0 := Light__init__ address configuration app).
  set (t := _availability_threshold s0).
  destruct (refresh_tracker client address Hfail rounds s0 eq_refl) as [Hok Htr].
  split; [done |].
  unfold tracker in Htr. injection Htr as _ Hst _ Hn _.
  rewrite Hst, Hn.
  assert (Ht : 1 <= t) by (unfold t, s0; simpl; lia).
  split.
  - intros Hlt.
    destruct (failures_below_threshold rounds s0) as (_ & Hst' & Hn');
      [change (0 + Z.of_nat rounds < t); lia |].
    by rewrite Hst', Hn'.
  - intros Hge.
    replace rounds with (Z.to_nat (t - 1) + (1 + (rounds - Z.to_nat t)))%nat by lia.
    rewrite !repeat_app, !replay_app. simpl (replay (repeat Failure 1) _).
    destruct (failures_below_threshold (Z.to_nat (t - 1)) s0) as (Hf1 & Hst1 & Hn1);
      [change (0 + Z.of_nat (Z.to_nat (t - 1)) < t); lia |].
    set (s1 := replay (repeat Failure (Z.to_nat (t - 1))) s0) in *.
    destruct (failure_effect s1) as (_ & _ & _ & Hcase).
    assert (Hthr : _availability_threshold s1 = t) by (unfold s1; by rewrite replay_threshold).
    rewrite Hthr, Hf1, Hst1 in Hcase. simpl in Hcase.
    rewrite bool_decide_eq_true_2 in Hcase by lia. simpl in Hcase.
    destruct Hcase as [Hoff Hn2].
    destruct (failures_when_offline (rounds - Z.to_nat t) (_availability_failure s1).2 Hoff)
      as [Hst3 Hn3].
    by rewrite Hst3, Hn3, Hn2, Hn1.
Qed.

Lemma refresh_goes_offline_witness :
  _availability_state (refresh failing_client 5 default_light).2 = Some "offline"%string /\
  notifications (refresh failing_client 5 default_light).2
    = [("availability"%string, VStr "offline")].
Proof.
  assert (Hfail : forall h r, poll_verdict 170 (failing_client h r) = Failed)
    by (intros h r; reflexivity).
  destruct (refresh_goes_offline_once failing_client 170 ∅ example_app 5 Hfail)
    as (_ & _ & Hoff).
  apply Hoff. by vm_compute.
Defined.

(** X15: no query and no state refresh ever touches the availability state,
    the failure counter or the bound models, whatever the client answers:
    only the poll and the status callback feed the tracker. *)
Theorem queries_leave_availability_alone
        (client : list Client.request -> Client.request -> Client.outcome) :
  leaves_availability_alone (get_onoff client) /\
  leaves_availability_alone (get_lightness client) /\
  leaves_availability_alone (get_lightness_range client) /\
  leaves_availability_alone (get_ctl client) /\
  leaves_availability_alone (get_light_temperature_range client) /\
  leaves_availability_alone (refresh_state client).
Proof.
  assert (Honoff : leaves_availability_alone (get_onoff client))
    by (repeat split; run_poll; repeat poll_branch; reflexivity).
  assert (Hlightness : leaves_availability_alone (get_lightness client))
    by (repeat split; run_poll; repeat poll_branch; reflexivity).
  assert (Hctl : leaves_availability_alone (get_ctl client))
    by (repeat split; run_poll; repeat poll_branch; reflexivity).
  split; [done |]. split; [done |].
  split; [repeat split; run_poll; repeat poll_branch; reflexivity |].
  split; [done |].
  split; [repeat split; run_poll; repeat poll_branch; reflexivity |].
  intros s.
  unfold refresh_state, supports, log, modify, self, mbind, M_bind, bind, ret. simpl.
  set (s1 := with_logging (logging s ++ [DEBUG]) s).
  assert (H1 : forall s2 r,
             (if bool_decide (OnOffProperty ∈ _features s)
              then get_onoff client else fun s => (Ok tt, s)) s1 = (r, s2) ->
             _availability_failures s2 = _availability_failures s /\
             _availability_state s2 = _availability_state s /\
             _bound_models s2 = _bound_models s).
  { intros s2 r E. destruct (bool_decide (OnOffProperty ∈ _features s)); cbv beta iota in E.
    - specialize (Honoff s1). rewrite E in Honoff. exact Honoff.
    - by injection E as _ <-. }
  destruct ((if bool_decide (OnOffProperty ∈ _features s)
             then get_onoff client else fun s => (Ok tt, s)) s1) as [r2 s2] eqn:E1.
  specialize (H1 s2 r2 eq_refl). destruct r2 as [[] | e]; [| exact H1].
  set (s3 := with_logging (logging s2 ++ [DEBUG]) s2).
  assert (H2 : forall s4 r,
             (if bool_decide (BrightnessProperty ∈ _features s2)
              then get_lightness client else fun s => (Ok tt, s)) s3 = (r, s4) ->
             _availability_failures s4 = _availability_failures s /\
             _availability_state s4 = _availability_state s /\
             _bound_models s4 = _bound_models s).
  { intros s4 r E. destruct (bool_decide (BrightnessProperty ∈ _features s2));
      cbv beta iota in E.
    - specialize (Hlightness s3). rewrite E in Hlightness. simpl in Hlightness.
      destruct Hlightness as (-> & -> & ->). exact H1.
    - by injection E as _ <-. }
  destruct ((if bool_decide (BrightnessProperty ∈ _features s2)
             then get_lightness client else fun s => (Ok tt, s)) s3) as [r4 s4] eqn:E2.
  specialize (H2 s4 r4 eq_refl). destruct r4 as [[] | e]; [| exact H2].
  destruct (bool_decide (TemperatureProperty ∈ _features s4)).
  - destruct (Hctl (with_logging (logging s4 ++ [DEBUG]) s4)) as (-> & -> & ->). exact H2.
  - exact H2.
Qed.

(** X16: a query that gets a dictionary entry with the expected field stores
    the reported value in the cache and notifies it once, after exactly one
    request; this holds for the on/off state and for the lightness. *)
Theorem query_success_updates_cache
        (client : list Client.request -> Client.request -> Client.outcome)
        (s : Node) idx key_rest keys_rest (answer : gmap Z Client.entry)
        (fields : gmap string value) (v : value) :
  app_keys (_app s) = (idx :: key_rest) :: keys_rest ->
  answer !! unicast s = Some (Client.EntryDict fields) ->
  (client (requests s) (Client.get_light_status [unicast s] idx) = Client.Returns (Some answer) ->
   fields !! "present_onoff" = Some v ->
   (get_onoff client s).1 = Ok tt /\
   _retained (get_onoff client s).2 !! OnOffProperty = Some v /\
   notifications (get_onoff client s).2 = notifications s ++ [(OnOffProperty, v)] /\
   requests (get_onoff client s).2 = requests s ++ [Client.get_light_status [unicast s] idx]) /\
  (client (requests s) (Client.get_lightness [unicast s] idx) = Client.Returns (Some answer) ->
   fields !! "present_lightness" = Some v ->
   (get_lightness client s).1 = Ok tt /\
   _retained (get_lightness client s).2 !! BrightnessProperty = Some v /\
   notifications (get_lightness client s).2 = notifications s ++ [(BrightnessProperty, v)] /\
   requests (get_lightness client s).2 = requests s ++ [Client.get_lightness [unicast s] idx]).
Proof.
  intros Hkeys Hentry. split; intros Hanswer Hfield; run_poll;
    rewrite Hkeys; simpl; rewrite Hanswer; simpl; rewrite Hentry; simpl;
    rewrite Hfield; simpl; by rewrite lookup_insert_eq.
Qed.

Lemma query_success_witness :
  _retained (get_onoff
               (fun _ _ => Client.Returns
                  (Some {[ 170 := Client.EntryDict {[ "present_onoff" := VBool true ]} ]}))
               default_light).2 !! OnOffProperty = Some (VBool true).
Proof.
  assert (Hentry : ({[ 170 := Client.EntryDict {[ "present_onoff" := VBool true ]} ]}
                      : gmap Z Client.entry) !! unicast default_light
                   = Some (Client.EntryDict {[ "present_onoff" := VBool true ]}))
    by (by vm_compute).
  assert (Hfield : ({[ "present_onoff" := VBool true ]} : gmap string value)
                     !! "present_onoff" = Some (VBool true))
    by (by vm_compute).
  destruct (query_success_updates_cache
              (fun _ _ => Client.Returns
                 (Some {[ 170 := Client.EntryDict {[ "present_onoff" := VBool true ]} ]}))
              default_light 0 [0] [] _ _ (VBool true) eq_refl Hentry)
    as [Honoff _].
  destruct (Honoff eq_refl Hfield) as (_ & Hcache & _). exact Hcache.
Defined.

(** X17: the lightness-range, CTL and temperature-range queries only log:
    whatever the client answers, they change neither the cache nor the
    notifications (the reported colour temperature is not fed back). *)
Theorem range_and_ctl_queries_only_log
        (client : list Client.request -> Client.request -> Client.outcome) (s : Node) :
  (_retained (get_lightness_range client s).2 = _retained s /\
   notifications (get_lightness_range client s).2 = notifications s) /\
  (_retained (get_ctl client s).2 = _retained s /\
   notifications (get_ctl client s).2 = notifications s) /\
  (_retained (get_light_temperature_range client s).2 = _retained s /\
   notifications (get_light_temperature_range client s).2 = notifications s).
Proof.
  repeat split; run_poll; repeat poll_branch; reflexivity.
Qed.

(** X18: a lightness status message from another address is ignored
    altogether; one from the node itself marks it online and resets the
    failure counter before the message is even read, so that also a
    malformed message (which raises [KeyError]) counts as a sign of life; a
    well-formed one then stores and notifies the reported lightness. *)
Theorem lightness_cb_effects
        (s : Node) (source net_index destination : Z)
        (message : gmap string (gmap string value)) :
  (source <> unicast s ->
   lightness_cb source net_index destination message s = (Ok tt, s)) /\
  (source = unicast s ->
   _availability_failures (lightness_cb source net_index destination message s).2 = 0 /\
   _availability_state (lightness_cb source net_index destination message s).2
     = Some "online"%string /\
   ((lightness_cb source net_index destination message s).1 = Ok tt \/
    (lightness_cb source net_index destination message s).1 = Raise KeyError) /\
   forall status v,
     message !! "light_lightness_status" = Some status ->
     status !! "present_lightness" = Some v ->
     (lightness_cb source net_index destination message s).1 = Ok tt /\
     _retained (lightness_cb source net_index destination message s).2 !! BrightnessProperty
       = Some v /\
     notifications (lightness_cb source net_index destination message s).2
       = notifications (_availability_success s).2 ++ [(BrightnessProperty, v)]).
Proof.
  split.
  - intros Hne. run_poll. by rewrite bool_decide_eq_false_2.
  - intros ->. run_poll. rewrite bool_decide_eq_true_2 by done.
    unfold _availability_success. run_method.
    case_bool_decide as Hon; simpl.
    + split; [by repeat poll_branch |].
      split; [by repeat poll_branch |].
      split; [repeat poll_branch; auto |].
      intros status v Hstatus Hv. rewrite Hstatus. simpl. rewrite Hv. simpl.
      by rewrite lookup_insert_eq.
    + split; [by repeat poll_branch |].
      split; [by repeat poll_branch |].
      split; [repeat poll_branch; auto |].
      intros status v Hstatus Hv. rewrite Hstatus. simpl. rewrite Hv. simpl.
      by rewrite lookup_insert_eq.
Qed.

Lemma lightness_cb_witness :
  lightness_cb 171 0 170 ∅ default_light = (Ok tt, default_light) /\
  _availability_state (lightness_cb 170 0 170 ∅ default_light).2 = Some "online"%string.
Proof.
  destruct (lightness_cb_effects default_light 171 0 170 ∅) as [Hother _].
  destruct (lightness_cb_effects default_light 170 0 170 ∅) as [_ Hself].
  split.
  - apply Hother. by vm_compute.
  - destruct (Hself eq_refl) as (_ & Hst & _). exact Hst.
Defined.

(** * Further properties of model binding *)

(** The composition lets [m] through: there is none, or its element zero
    supports [m]. *)
Lemma bind_model_permitted_run
      (client : list Client.request -> Client.request -> Client.outcome)
      (s : Node) (m : model) idx key_rest keys_rest :
  (_composition s = None \/
   exists composition element,
     _composition s = Some composition /\
     Composition_element composition 0 = Some element /\
     Element_supports element m = true) ->
  app_keys (_app s) = (idx :: key_rest) :: keys_rest ->
  requests (bind_model client m s).2
    = requests s ++ [Client.bind_app_key (unicast s) 0 (unicast s) idx m] /\
  _composition (bind_model client m s).2 = _composition s /\
  _app (bind_model client m s).2 = _app s /\
  unicast (bind_model client m s).2 = unicast s /\
  match client (requests s) (Client.bind_app_key (unicast s) 0 (unicast s) idx m) with
  | Client.Returns _ =>
      (bind_model client m s).1 = Ok true /\
      _bound_models (bind_model client m s).2 = {[m]} ∪ _bound_models s
  | Client.Raises e =>
      (bind_model client m s).1 = Raise e /\
      _bound_models (bind_model client m s).2 = _bound_models s
  end.
Proof.
  intros Hcomp Hkeys.
  destruct Hcomp as [Hc | (composition & element & Hc & He & Hs)];
    run_bind_model; rewrite Hc; simpl; rewrite ?He, ?Hs; simpl;
    rewrite Hkeys; simpl;
    destruct (client _ _); simpl; rewrite <- ?app_assoc; done.
Qed.

(** X19: binding a model again is harmless: the second call issues the same
    request once more, returns [True] again and leaves the bound-model set as
    the first call left it. *)
Theorem bind_model_twice
        (client : list Client.request -> Client.request -> Client.outcome)
        (s : Node) (m : model) idx key_rest keys_rest a1 a2 :
  (_composition s = None \/
   exists composition element,
     _composition s = Some composition /\
     Composition_element composition 0 = Some element /\
     Element_supports element m = true) ->
  app_keys (_app s) = (idx :: key_rest) :: keys_rest ->
  client (requests s) (Client.bind_app_key (unicast s) 0 (unicast s) idx m)
    = Client.Returns a1 ->
  client (requests s ++ [Client.bind_app_key (unicast s) 0 (unicast s) idx m])
         (Client.bind_app_key (unicast s) 0 (unicast s) idx m)
    = Client.Returns a2 ->
  (bind_model client m (bind_model client m s).2).1 = Ok true /\
  _bound_models (bind_model client m (bind_model client m s).2).2
    = _bound_models (bind_model client m s).2 /\
  requests (bind_model client m (bind_model client m s).2).2
    = requests s ++ [Client.bind_app_key (unicast s) 0 (unicast s) idx m;
                     Client.bind_app_key (unicast s) 0 (unicast s) idx m].
Proof.
  intros Hcomp Hkeys H1 H2.
  destruct (bind_model_permitted_run client s m _ _ _ Hcomp Hkeys)
    as (Hreq & Hc & Happ & Huni & Hres).
  rewrite H1 in Hres. destruct Hres as [_ Hbound].
  set (s1 := (bind_model client m s).2) in *.
  assert (Hcomp1 : _composition s1 = None \/
                   exists composition element,
                     _composition s1 = Some composition /\
                     Composition_element composition 0 = Some element /\
                     Element_supports element m = true) by (by rewrite Hc).
  assert (Hkeys1 : app_keys (_app s1) = (idx :: key_rest) :: keys_rest) by (by rewrite Happ).
  destruct (bind_model_permitted_run client s1 m _ _ _ Hcomp1 Hkeys1)
    as (Hreq' & _ & _ & _ & Hres').
  rewrite Huni, Hreq, H2 in Hres'. destruct Hres' as [Hok Hbound'].
  split; [done |]. split.
  - rewrite Hbound', Hbound. by rewrite (assoc_L (∪)), (idemp_L (∪)).
  - rewrite Hreq', Hreq, Huni. by rewrite <- app_assoc.
Qed.

Lemma bind_model_twice_witness :
  requests (bind_model silent_client LightCTLServer
              (bind_model silent_client LightCTLServer default_light).2).2
  = requests default_light ++ [Client.bind_app_key 170 0 170 0 LightCTLServer;
                               Client.bind_app_key 170 0 170 0 LightCTLServer].
Proof.
  assert (Hcomp : _composition default_light = None \/
                  exists composition element,
                    _composition default_light = Some composition /\
                    Composition_element composition 0 = Some element /\
                    Element_supports element LightCTLServer = true)
    by (left; reflexivity).
  destruct (bind_model_twice silent_client default_light LightCTLServer 0 [0] [] None None
              Hcomp eq_refl eq_refl eq_refl) as (_ & _ & Hreq).
  exact Hreq.
Defined.

(** X20: a binding that fails leaves no trace in the bound-model set: when
    the client raises, the exception reaches the caller after the one
    request, and when the application has no key, [IndexError] is raised
    before any request; in both cases the model is not recorded as bound. *)
Theorem bind_model_failure_binds_nothing
        (client : list Client.request -> Client.request -> Client.outcome)
        (s : Node) (m : model) :
  (_composition s = None \/
   exists composition element,
     _composition s = Some composition /\
     Composition_element composition 0 = Some element /\
     Element_supports element m = true) ->
  (forall idx key_rest keys_rest e,
      app_keys (_app s) = (idx :: key_rest) :: keys_rest ->
      client (requests s) (Client.bind_app_key (unicast s) 0 (unicast s) idx m)
        = Client.Raises e ->
      (bind_model client m s).1 = Raise e /\
      _bound_models (bind_model client m s).2 = _bound_models s /\
      requests (bind_model client m s).2
        = requests s ++ [Client.bind_app_key (unicast s) 0 (unicast s) idx m]) /\
  (app_keys (_app s) = [] ->
   (bind_model client m s).1 = Raise IndexError /\
   _bound_models (bind_model client m s).2 = _bound_models s /\
   requests (bind_model client m s).2 = requests s).
Proof.
  intros Hcomp. split.
  - intros idx key_rest keys_rest e Hkeys Hraise.
    destruct (bind_model_permitted_run client s m _ _ _ Hcomp Hkeys)
      as (Hreq & _ & _ & _ & Hres).
    rewrite Hraise in Hres. destruct Hres as [Hr Hb]. done.
  - intros Hkeys.
    destruct Hcomp as [Hc | (composition & element & Hc & He & Hs)];
      run_bind_model; rewrite Hc; simpl; rewrite ?He, ?Hs; simpl;
      rewrite Hkeys; simpl; done.
Qed.

Lemma bind_model_failure_witness :
  (bind_model failing_client LightCTLServer default_light).1 = Raise (ClientError "timeout") /\
  _bound_models (bind_model failing_client LightCTLServer default_light).2
    = _bound_models default_light.
Proof.
  assert (Hcomp : _composition default_light = None \/
                  exists composition element,
                    _composition default_light = Some composition /\
                    Composition_element composition 0 = Some element /\
                    Element_supports element LightCTLServer = true)
    by (left; reflexivity).
  destruct (bind_model_failure_binds_nothing failing_client default_light LightCTLServer Hcomp)
    as [Hraise _].
  destruct (Hraise 0 [0] [] (ClientError "timeout") eq_refl eq_refl) as (Hr & Hb & _).
  split; [exact Hr | exact Hb].
Defined.

(** X21: whatever happens, [bind_model m] never unbinds anything and never
    changes whether another model is bound; and when it returns [True], [m]
    is bound afterwards, so that the commands gated on [m] are let through. *)
Theorem bind_model_only_adds
        (client : list Client.request -> Client.request -> Client.outcome)
        (s : Node) (m m' : model) :
  _bound_models s ⊆ _bound_models (bind_model client m s).2 /\
  (m' <> m ->
   _is_model_bound (bind_model client m s).2 m' = _is_model_bound s m') /\
  ((bind_model client m s).1 = Ok true ->
   _is_model_bound (bind_model client m s).2 m = true).
Proof.
  unfold _is_model_bound. run_bind_model.
  repeat match goal with
         | |- context [match ?x with _ => _ end] =>
             match type of x with
             | option _ => destruct x eqn:?
             | Client.outcome => destruct x eqn:?
             | bool => destruct x eqn:?
             end; simpl
         end;
    (split; [first [reflexivity | apply union_subseteq_r] |]);
    (split; [intros Hne | intros Hok]);
    try done; try discriminate;
    first [ apply bool_decide_ext; rewrite elem_of_union, elem_of_singleton; tauto
          | apply bool_decide_eq_true_2, elem_of_union_l, elem_of_singleton; reflexivity ].
Qed.

Lemma bind_model_only_adds_witness :
  _is_model_bound (bind_model silent_client LightCTLServer default_light).2 LightCTLServer
    = true /\
  _is_model_bound (bind_model silent_client LightCTLServer default_light).2 GenericOnOffServer
    = _is_model_bound default_light GenericOnOffServer.
Proof.
  destruct (bind_model_only_adds silent_client default_light LightCTLServer GenericOnOffServer)
    as (_ & Hother & Hbound).
  split.
  - apply Hbound. by vm_compute.
  - apply Hother. discriminate.
Defined.

(** * Fetching the composition *)

(** X22: a composition fetch that returns without a usable page zero for the
    node (no data, no entry, an entry that is no dictionary, a missing or
    empty page) forgets the composition known so far, so that a model which
    the old composition refused is bound afterwards; a fetch that raises
    keeps the old composition, which goes on refusing the model. *)
Theorem failed_fetch_widens_binding
        (Page : Type) (page_truthy : Page -> bool) (Composition_of_page : Page -> Composition)
        (client : list Client.request -> Client.request -> Client.outcome)
        (s : Node) (m : model) (data : option (gmap Z (composition_entry Page)))
        (e : exn) composition element idx key_rest keys_rest answer :
  _composition s = Some composition ->
  Composition_element composition 0 = Some element ->
  Element_supports element m = false ->
  match default ∅ data !! unicast s with
  | Some (PageDict _ (Some page)) => page_truthy page = false
  | _ => True
  end ->
  app_keys (_app s) = (idx :: key_rest) :: keys_rest ->
  client (requests s) (Client.bind_app_key (unicast s) 0 (unicast s) idx m)
    = Client.Returns answer ->
  (bind_model client m s).1 = Ok false /\
  (fetch_composition Page page_truthy Composition_of_page (DataReturned Page data) s).1
    = Ok tt /\
  _composition
    (fetch_composition Page page_truthy Composition_of_page (DataReturned Page data) s).2
    = None /\
  (bind_model client m
     (fetch_composition Page page_truthy Composition_of_page (DataReturned Page data) s).2).1
    = Ok true /\
  fetch_composition Page page_truthy Composition_of_page (DataRaised Page e) s = (Raise e, s).
Proof.
  intros Hc He Hs Hunusable Hkeys Hanswer.
  split; [run_bind_model; by rewrite Hc, He, Hs |].
  assert (Hfetch :
    exists logged,
      fetch_composition Page page_truthy Composition_of_page (DataReturned Page data) s
      = (Ok tt, with_composition None (with_logging logged s))).
  { unfold fetch_composition, log, modify, self, mbind, M_bind, bind, ret. simpl.
    destruct (default ∅ data !! unicast s) as [[| [page |]] |]; simpl;
      rewrite ?Hunusable; simpl; eauto. }
  destruct Hfetch as [logged ->]. simpl.
  split; [done |]. split; [done |]. split; [| done].
  run_bind_model. rewrite Hkeys. simpl. by rewrite Hanswer.
Qed.

Lemma failed_fetch_witness :
  (bind_model silent_client LightCTLServer
     (fetch_composition unit (fun _ => true) (fun _ => {| composition_elements := [] |})
                        (DataReturned unit None) onoff_only_light).2).1 = Ok true.
Proof.
  destruct (failed_fetch_widens_binding
              unit (fun _ => true) (fun _ => {| composition_elements := [] |})
              silent_client onoff_only_light LightCTLServer None KeyError
              {| composition_elements := [ {| element_models := [GenericOnOffServer] |} ] |}
              {| element_models := [GenericOnOffServer] |} 0 [0] [] None
              eq_refl eq_refl eq_refl I eq_refl eq_refl)
    as (_ & _ & _ & Hbind & _).
  exact Hbind.
Defined.
